(** * LBANN: the fully connected layer

    A shallow embedding of [src/layers/lbann_layer_fully_connected.cpp] and of
    the part of [include/lbann/layers/lbann_layer.hpp] it relies on.

    - Scalars.  The C++ [DataType] is a floating point type.  The layer's
      arithmetic is embedded over an interface [DataOps] of the operations the
      source uses; the algebraic identities a statement needs are those of
      exact arithmetic and are collected in [Ideal].  Rounding is not
      modelled.
    - Matrices.  An Elemental matrix is its global extents and its entries,
      kept as a list of rows.  A distributed matrix is the global matrix
      together with the process grid; [IsLocal], [LocalHeight], [SetLocal] and
      the like are stated for one process of the grid.
    - Views.  A view names the buffer it aliases and an index range in each
      direction; reading and writing a view goes through the buffer.
    - The layer.  [Layer] is the C++ object: its buffers, its views and the
      members the modelled methods read. *)

From Stdlib Require Import List Arith Bool Lia ZArith QArith Qcanon Uint63.
From Corelib Require Import PrimFloat.
Import ListNotations.

Set Implicit Arguments.

#[local] Close Scope Qc_scope.
#[local] Close Scope Q_scope.
#[local] Open Scope nat_scope.

(** ** Scalars *)

(** The operations of [DataType] that the layer uses.  [d_of_nat] is the
    conversion of an integer operand ([1.0 / get_effective_minibatch_size()],
    [total_error / norms.Height()], [3 * var]); [d_tol] is the literal
    [1e-12] of the gradient checker. *)
Class DataOps : Type := {
  DataType : Type;
  d_zero : DataType;
  d_one : DataType;
  d_add : DataType -> DataType -> DataType;
  d_mul : DataType -> DataType -> DataType;
  d_sub : DataType -> DataType -> DataType;
  d_div : DataType -> DataType -> DataType;
  d_neg : DataType -> DataType;
  d_sqrt : DataType -> DataType;
  d_ltb : DataType -> DataType -> bool;
  d_of_nat : nat -> DataType;
  d_tol : DataType
}.

Declare Scope data_scope.
Delimit Scope data_scope with D.
Notation "x + y" := (d_add x y) : data_scope.
Notation "x - y" := (d_sub x y) : data_scope.
Notation "x * y" := (d_mul x y) : data_scope.
Notation "x / y" := (d_div x y) : data_scope.
Notation "- x" := (d_neg x) : data_scope.

(** The identities of exact arithmetic that the statements below rely on. *)
Class Ideal (O : DataOps) : Prop := {
  add_0_l : forall x : DataType, (d_zero + x)%D = x;
  add_0_r : forall x : DataType, (x + d_zero)%D = x;
  mul_1_l : forall x : DataType, (d_one * x)%D = x;
  mul_0_l : forall x : DataType, (d_zero * x)%D = d_zero;
  mul_0_r : forall x : DataType, (x * d_zero)%D = d_zero;
  mul_neg1_l : forall x : DataType, ((- d_one) * x)%D = (- x)%D;
  mul_div_one : forall x y : DataType, (x * (d_one / y))%D = (x / y)%D;
  div_0_l : forall n : nat, n <> 0 -> (d_zero / d_of_nat n)%D = d_zero;
  sqrt_0 : d_sqrt d_zero = d_zero
}.

(** Exact rational arithmetic.  [Qc_sqrt] is exact on squares of rationals
    (it takes the integer square roots of numerator and denominator). *)
Definition Qc_sqrt (x : Qc) : Qc :=
  Q2Qc (Z.sqrt (Qnum (this x)) # Pos.sqrt (Qden (this x)))%Q.

Definition Qc_ltb (x y : Qc) : bool :=
  match (this x ?= this y)%Q with Lt => true | _ => false end.

Definition Qc_of_nat (n : nat) : Qc := Q2Qc (inject_Z (Z.of_nat n)).

#[export] Instance Qc_ops : DataOps := {|
  DataType := Qc;
  d_zero := Q2Qc 0%Q;
  d_one := Q2Qc 1%Q;
  d_add := Qcplus;
  d_sub := Qcminus;
  d_mul := Qcmult;
  d_div := Qcdiv;
  d_neg := Qcopp;
  d_sqrt := Qc_sqrt;
  d_ltb := Qc_ltb;
  d_of_nat := Qc_of_nat;
  d_tol := Q2Qc (1 # 1000000000000)%Q
|}.

(** IEEE binary64 arithmetic, the [double] instance of [DataType].  It
    computes; it has none of the identities of [Ideal] in general. *)
Definition binary64 : DataOps := {|
  DataType := float;
  d_zero := 0%float;
  d_one := 1%float;
  d_add := PrimFloat.add;
  d_sub := PrimFloat.sub;
  d_mul := PrimFloat.mul;
  d_div := PrimFloat.div;
  d_neg := PrimFloat.opp;
  d_sqrt := PrimFloat.sqrt;
  d_ltb := PrimFloat.ltb;
  d_of_nat := fun n => PrimFloat.of_uint63 (Uint63.of_Z (Z.of_nat n));
  d_tol := 0x1.19799812dea11p-40%float
|}.

(** ** Matrices *)

Section Matrices.
Context {O : DataOps}.

(** An Elemental matrix: global height and width, and the entries by rows. *)
Record Mat : Type := Build_Mat {
  Height : nat;
  Width : nat;
  rows : list (list DataType)
}.

(** [Get(i, j)]; an index outside the stored rows reads as zero. *)
Definition Get (M : Mat) (i j : nat) : DataType :=
  nth j (nth i (rows M) []) d_zero.

(** The [h] by [w] matrix whose entry [(i, j)] is [f i j]. *)
Definition mk_mat (h w : nat) (f : nat -> nat -> DataType) : Mat :=
  {| Height := h; Width := w;
     rows := map (fun i => map (f i) (seq 0 w)) (seq 0 h) |}.

(** A matrix literal. *)
Definition of_rows (rs : list (list DataType)) : Mat :=
  {| Height := length rs; Width := length (hd [] rs); rows := rs |}.

(** [Set(i, j, v)]. *)
Definition Set_ (M : Mat) (i j : nat) (v : DataType) : Mat :=
  mk_mat (Height M) (Width M)
         (fun a b => if (a =? i) && (b =? j) then v else Get M a b).

(** [Zeros(A, m, n)]: [A] becomes the [m] by [n] zero matrix. *)
Definition Zeros (m n : nat) : Mat := mk_mat m n (fun _ _ => d_zero).

(** [Zero(A)]: the entries of [A] are set to zero, its extents stay. *)
Definition Zero (A : Mat) : Mat := Zeros (Height A) (Width A).

(** [Copy(A, B)]: [B] becomes a copy of [A]; the value stored in [B]. *)
Definition Copy (A : Mat) : Mat := A.

(** [Axpy(alpha, X, Y)]: [Y := alpha X + Y]. *)
Definition Axpy (alpha : DataType) (X Y : Mat) : Mat :=
  mk_mat (Height Y) (Width Y) (fun i j => (alpha * Get X i j + Get Y i j)%D).

(** The sum [f 0 + ... + f (n-1)], accumulated from zero. *)
Definition sum_upto (n : nat) (f : nat -> DataType) : DataType :=
  fold_left (fun acc k => (acc + f k)%D) (seq 0 n) d_zero.

Inductive Orientation : Type := NORMAL | TRANSPOSE.

Definition transpose (A : Mat) : Mat :=
  mk_mat (Width A) (Height A) (fun i j => Get A j i).

Definition orient (o : Orientation) (A : Mat) : Mat :=
  match o with NORMAL => A | TRANSPOSE => transpose A end.

(** The product [A B]. *)
Definition matmul (A B : Mat) : Mat :=
  mk_mat (Height A) (Width B)
         (fun i j => sum_upto (Width A) (fun k => (Get A i k * Get B k j)%D)).

(** The multiple [alpha A]. *)
Definition scale (alpha : DataType) (A : Mat) : Mat :=
  mk_mat (Height A) (Width A) (fun i j => (alpha * Get A i j)%D).

(** [Gemm(orientA, orientB, alpha, A, B, beta, C)]:
    [C := alpha op(A) op(B) + beta C], on the extents of [C]. *)
Definition Gemm (oA oB : Orientation) (alpha : DataType) (A B : Mat)
           (beta : DataType) (C : Mat) : Mat :=
  let A' := orient oA A in
  let B' := orient oB B in
  mk_mat (Height C) (Width C)
         (fun i j =>
            (alpha * sum_upto (Width A') (fun k => (Get A' i k * Get B' k j)%D)
             + beta * Get C i j)%D).

(** [El::IR(beg, end)]: the half-open index range [beg .. end-1]. *)
Record IR : Type := Build_IR { ir_beg : nat; ir_end : nat }.

Definition ir_len (I : IR) : nat := ir_end I - ir_beg I.

Definition in_IR (I : IR) (i : nat) : bool :=
  (ir_beg I <=? i) && (i <? ir_end I).

(** The contents seen through [View(B, A, I, J)]. *)
Definition view_read (A : Mat) (I J : IR) : Mat :=
  mk_mat (ir_len I) (ir_len J) (fun i j => Get A (ir_beg I + i) (ir_beg J + j)).

(** Storing [X] through [View(B, A, I, J)]: the window of [A] is overwritten,
    the rest of [A] stays. *)
Definition view_write (A : Mat) (I J : IR) (X : Mat) : Mat :=
  mk_mat (Height A) (Width A)
         (fun i j => if in_IR I i && in_IR J j
                     then Get X (i - ir_beg I) (j - ir_beg J)
                     else Get A i j).

(** The [k]-th column, top to bottom. *)
Definition column (A : Mat) (k : nat) : list DataType :=
  map (fun i => Get A i k) (seq 0 (Height A)).

(** The two-norm of a vector: the square root of the sum of squares. *)
Definition two_norm (v : list DataType) : DataType :=
  d_sqrt (fold_left (fun acc x => (acc + x * x)%D) v d_zero).

(** [ColumnTwoNorms(A, norms)]: [norms] becomes the column vector, one row
    for each column of [A], of the two-norms of the columns of [A]. *)
Definition ColumnTwoNorms (A : Mat) : Mat :=
  mk_mat (Width A) 1 (fun k _ => two_norm (column A k)).

(** A matrix is well formed when its stored rows are its [Height] by [Width]
    entries; every operation above produces such matrices. *)
Definition wf (A : Mat) : Prop := A = mk_mat (Height A) (Width A) (Get A).

End Matrices.

(** ** The process grid and the element-cyclic distributions

    A [DistMatrix<T, U, V>] over a grid of [grid_height * grid_width]
    processes, with zero alignments: the rows are dealt out cyclically
    according to [U] and the columns according to [V].  [MC] deals over a
    column of the grid (the owner of index [i] is the grid row
    [i mod grid_height]), [MR] over a row of the grid (the owner is the grid
    column [i mod grid_width]), [STAR] leaves the direction undistributed. *)

Record Grid : Type := Build_Grid { grid_height : nat; grid_width : nat }.

Record Proc : Type := Build_Proc { p_row : nat; p_col : nat }.

Definition valid_grid (g : Grid) : Prop :=
  0 < grid_height g /\ 0 < grid_width g.

Definition in_grid (g : Grid) (p : Proc) : Prop :=
  p_row p < grid_height g /\ p_col p < grid_width g.

(** The processes of the grid, row by row. *)
Definition procs (g : Grid) : list Proc :=
  flat_map (fun r => map (fun c => Build_Proc r c) (seq 0 (grid_width g)))
           (seq 0 (grid_height g)).

Inductive Dist : Type := MC | MR | STAR.

Definition stride (g : Grid) (d : Dist) : nat :=
  match d with MC => grid_height g | MR => grid_width g | STAR => 1 end.

Definition shift (me : Proc) (d : Dist) : nat :=
  match d with MC => p_row me | MR => p_col me | STAR => 0 end.

(** Elemental's [Length_(n, shift, stride)]: how many of the indices
    [shift, shift + stride, ...] are below [n]. *)
Definition Length_ (n shift stride : nat) : nat :=
  if shift <? n then (n - shift - 1) / stride + 1 else 0.

Section Distribution.
Context {O : DataOps}.
Variable g : Grid.
Variable me : Proc.
Variables U V : Dist.

Definition IsLocalRow (i : nat) : bool := i mod stride g U =? shift me U.
Definition IsLocalCol (j : nat) : bool := j mod stride g V =? shift me V.
Definition IsLocal (i j : nat) : bool := IsLocalRow i && IsLocalCol j.

Definition LocalHeight (A : Mat) : nat :=
  Length_ (Height A) (shift me U) (stride g U).
Definition LocalWidth (A : Mat) : nat :=
  Length_ (Width A) (shift me V) (stride g V).

Definition GlobalRow (iLoc : nat) : nat := shift me U + iLoc * stride g U.
Definition GlobalCol (jLoc : nat) : nat := shift me V + jLoc * stride g V.

(** The local index of a global one (of the next stored one, when the
    process does not store it). *)
Definition LocalRow (i : nat) : nat := Length_ i (shift me U) (stride g U).
Definition LocalCol (j : nat) : nat := Length_ j (shift me V) (stride g V).

Definition GetLocal (A : Mat) (iLoc jLoc : nat) : DataType :=
  Get A (GlobalRow iLoc) (GlobalCol jLoc).

Definition SetLocal (A : Mat) (iLoc jLoc : nat) (v : DataType) : Mat :=
  Set_ A (GlobalRow iLoc) (GlobalCol jLoc) v.

End Distribution.

(** The processes over which the rows of a [DistMatrix<T, U, STAR>] are
    dealt out, as the calling process sees them ([DistComm()]). *)
Definition DistComm (g : Grid) (me : Proc) (U : Dist) : list Proc :=
  match U with
  | MC => map (fun r => Build_Proc r (p_col me)) (seq 0 (grid_height g))
  | MR => map (fun c => Build_Proc (p_row me) c) (seq 0 (grid_width g))
  | STAR => [me]
  end.

(** The process that stores entry [(i, j)] of a [DistMat]. *)
Definition owner (g : Grid) (i j : nat) : Proc :=
  Build_Proc (i mod grid_height g) (j mod grid_width g).

(** Every process of the grid executes [step] on the entries it stores. *)
Definition spmd {O : DataOps} (g : Grid) (step : Proc -> Mat -> Mat) (A : Mat) : Mat :=
  fold_left (fun M p => step p M) (procs g) A.

(** The collective of the message passing layer, an external collaborator:
    [AllReduce mine all] is the value the variable [total_error] holds on the
    calling process after the statement [mpi::AllReduce(total_error, comm)],
    [mine] being the value the calling process passed and [all] the values
    passed by the processes of [comm], in rank order. *)
Class MpiOps (O : DataOps) : Type := {
  AllReduce : DataType -> list DataType -> DataType
}.

(** What the statements below use of the collective: on a communicator of
    one process it leaves the value as it is, and reducing zeros gives
    zero. *)
Class MpiLaws (O : DataOps) (M : MpiOps O) : Prop := {
  AllReduce_single : forall x : DataType, AllReduce x [x] = x;
  AllReduce_zeros :
    forall all : list DataType,
      Forall (fun x => x = d_zero) all -> AllReduce d_zero all = d_zero
}.

(** ** The layer *)

(** Modelled from the spec: the enumeration [execution_mode] is declared in
    [lbann_base.hpp], which is not part of the sources at hand.  The spec
    names the mode training and speaks of any other mode; [update] tests
    for [execution_mode::training] only, so the other enumerators are
    [other n]. *)
Module execution_mode.
Inductive t : Type := training | other (n : nat).
Definition is_training (m : t) : bool :=
  match m with training => true | other _ => false end.
End execution_mode.

(** Modelled from the spec: the enumeration [weight_initialization] is
    declared in [lbann_base.hpp], which is not part of the sources at hand.
    Its enumerators are those of the spec's table of policies, which are the
    labels of the switch in [setup]; [unlisted] is a value of the enumeration
    type that is none of them, which the switch sends to [default]. *)
Module weight_initialization.
Inductive t : Type :=
| zero | uniform | normal | glorot_normal | glorot_uniform | he_normal
| he_uniform | unlisted (raw : nat).
End weight_initialization.

(** The matrices a layer owns ([m_weights], [m_weights_gradient], ...). *)
Inductive buffer : Type :=
| weights | weights_gradient | preactivations | prev_error_signal
| error_signal | activations | prev_activations.

(** The views a layer holds ([m_weights_v], ..., [WB_view], ...). *)
Inductive view_name : Type :=
| weights_v | weights_gradient_v | preactivations_v | prev_error_signal_v
| error_signal_v | activations_v | prev_activations_v
| WB_view | WB_D_view | Acts_view.

Definition buffer_eq_dec (a b : buffer) : {a = b} + {a <> b}.
Proof. decide equality. Defined.

Definition view_name_eq_dec (a b : view_name) : {a = b} + {a <> b}.
Proof. decide equality. Defined.

(** A view: the buffer it aliases and the index ranges it covers. *)
Record view : Type := Build_view { v_of : buffer; v_rows : IR; v_cols : IR }.

(** The optimizer, an external collaborator of the layer. *)
Class OptimizerOps (O : DataOps) : Type := {
  Optimizer : Type;
  (** [optimizer->setup(input_dim, num_neurons)] *)
  Optimizer_setup : Optimizer -> nat -> nat -> Optimizer;
  (** [optimizer->update_weight_bias_matrix(WB_D, WB)]: the new optimizer
      state and the new contents of [WB]. *)
  update_weight_bias_matrix : Optimizer -> Mat -> Mat -> Optimizer * Mat
}.

(** The random fills of [lbann_random.hpp]: [gaussian_draw mean stddev i j]
    is the value [gaussian_fill(mat, m, n, mean, stddev)] stores at entry
    [(i, j)], [uniform_draw center radius i j] the one
    [uniform_fill(mat, m, n, center, radius)] stores there. *)
Class RandomOps (O : DataOps) : Type := {
  gaussian_draw : DataType -> DataType -> nat -> nat -> DataType;
  uniform_draw : DataType -> DataType -> nat -> nat -> DataType
}.

Section LayerState.
Context {O : DataOps} {Opt : OptimizerOps O}.

(** The members of [Layer] and [FullyConnectedLayer] that the modelled
    methods read or write.  The counts are [uint] in the source and natural
    numbers here.  The pointer members to matrices are the entries of
    [store], the view members the entries of [views]. *)
Record Layer : Type := Build_Layer {
  NumNeurons : nat;
  m_execution_mode : execution_mode.t;
  m_weight_initialization : weight_initialization.t;
  (** the matrices behind [m_weights], [m_weights_gradient], ... *)
  store : buffer -> Mat;
  (** the bindings of [m_weights_v], ..., [Acts_view] *)
  views : view_name -> view;
  (** [optimizer]; [None] is the null pointer *)
  optimizer : option Optimizer;
  (** the grid of [comm->get_model_grid()] *)
  comm : Grid;
  m_mini_batch_size : nat;
  m_effective_mbsize : nat
}.

Definition m_weights (L : Layer) : Mat := store L weights.
Definition m_weights_gradient (L : Layer) : Mat := store L weights_gradient.
Definition m_preactivations (L : Layer) : Mat := store L preactivations.
Definition m_prev_error_signal (L : Layer) : Mat := store L prev_error_signal.
Definition m_error_signal (L : Layer) : Mat := store L error_signal.
Definition m_activations (L : Layer) : Mat := store L activations.
Definition m_prev_activations (L : Layer) : Mat := store L prev_activations.

Definition get_minibatch_size (L : Layer) : nat := m_mini_batch_size L.
Definition get_effective_minibatch_size (L : Layer) : nat := m_effective_mbsize L.
Definition set_effective_minibatch_size (L : Layer) (size : nat) : Layer :=
  Build_Layer (NumNeurons L) (m_execution_mode L) (m_weight_initialization L)
              (store L) (views L) (optimizer L) (comm L) (m_mini_batch_size L)
              size.

(** Assignment to the matrix behind a pointer member. *)
Definition set_buffer (L : Layer) (b : buffer) (M : Mat) : Layer :=
  Build_Layer (NumNeurons L) (m_execution_mode L) (m_weight_initialization L)
              (fun b' => if buffer_eq_dec b' b then M else store L b')
              (views L) (optimizer L) (comm L) (m_mini_batch_size L)
              (m_effective_mbsize L).

Definition set_optimizer (L : Layer) (o : option Optimizer) : Layer :=
  Build_Layer (NumNeurons L) (m_execution_mode L) (m_weight_initialization L)
              (store L) (views L) o (comm L) (m_mini_batch_size L)
              (m_effective_mbsize L).

(** [View(B, A, I, J)]: the view [n] is bound to the window of buffer [b]. *)
Definition View (L : Layer) (n : view_name) (b : buffer) (I J : IR) : Layer :=
  Build_Layer (NumNeurons L) (m_execution_mode L) (m_weight_initialization L)
              (store L)
              (fun n' => if view_name_eq_dec n' n then Build_view b I J else views L n')
              (optimizer L) (comm L) (m_mini_batch_size L) (m_effective_mbsize L).

(** The matrix a view shows, and a store through a view. *)
Definition deref (L : Layer) (v : view) : Mat :=
  view_read (store L (v_of v)) (v_rows v) (v_cols v).

Definition assign (L : Layer) (v : view) (X : Mat) : Layer :=
  set_buffer L (v_of v) (view_write (store L (v_of v)) (v_rows v) (v_cols v) X).

(** [Gemm] on the views named [A], [B] and [C]. *)
Definition Gemm_views (oA oB : Orientation) (alpha : DataType)
           (A B : view_name) (beta : DataType) (C : view_name) (L : Layer) : Layer :=
  assign L (views L C)
         (Gemm oA oB alpha (deref L (views L A)) (deref L (views L B)) beta
               (deref L (views L C))).

(** Modelled from the spec: [Layer::fp_set_std_matrix_view] is defined in
    [lbann_layer.cpp], which is not part of the sources at hand.  At the start
    of a propagation step it rebinds the view of every mini-batch buffer to
    all rows and the first [b] columns of that buffer, [b] being the size of
    the current mini-batch; the views of the weights and of their gradient
    keep the full extents [setup] gave them. *)
Definition fp_set_std_matrix_view (L : Layer) (b : nat) : Layer :=
  let L := View L preactivations_v preactivations
                (Build_IR 0 (Height (m_preactivations L))) (Build_IR 0 b) in
  let L := View L prev_activations_v prev_activations
                (Build_IR 0 (Height (m_prev_activations L))) (Build_IR 0 b) in
  let L := View L prev_error_signal_v prev_error_signal
                (Build_IR 0 (Height (m_prev_error_signal L))) (Build_IR 0 b) in
  let L := View L error_signal_v error_signal
                (Build_IR 0 (Height (m_error_signal L))) (Build_IR 0 b) in
  View L activations_v activations
       (Build_IR 0 (Height (m_activations L))) (Build_IR 0 b).

(** [FullyConnectedLayer::fp_linearity] *)
Definition fp_linearity (L : Layer) : Layer :=
  let L := set_buffer L preactivations
             (Gemm NORMAL NORMAL d_one (m_weights L) (m_prev_activations L)
                   d_zero (m_preactivations L)) in
  set_buffer L activations (Copy (m_preactivations L)).

(** [FullyConnectedLayer::bp_linearity] *)
Definition bp_linearity (L : Layer) : Layer :=
  let L := Gemm_views TRANSPOSE NORMAL d_one weights_v prev_error_signal_v
                      d_zero error_signal_v L in
  Gemm_views NORMAL TRANSPOSE
             (d_one / d_of_nat (get_effective_minibatch_size L))%D
             prev_error_signal_v prev_activations_v d_zero weights_gradient_v L.

(** The first [b] columns of a matrix, and all of it, as a view shows them. *)
Definition first_columns (b : nat) (M : Mat) : Mat :=
  view_read M (Build_IR 0 (Height M)) (Build_IR 0 b).

Definition whole (M : Mat) : Mat :=
  view_read M (Build_IR 0 (Height M)) (Build_IR 0 (Width M)).

Definition has_extents (M : Mat) (h w : nat) : Prop :=
  Height M = h /\ Width M = w.

(** The extents and bindings [setup] establishes for a layer of
    [NumNeurons L] neurons behind [P] neurons, at mini-batch size
    [m_mini_batch_size L]. *)
Record configured (L : Layer) (P : nat) : Prop := {
  cfg_weights : has_extents (m_weights L) (NumNeurons L + 1) (P + 1);
  cfg_weights_gradient :
    has_extents (m_weights_gradient L) (NumNeurons L + 1) (P + 1);
  cfg_prev_error_signal :
    has_extents (m_prev_error_signal L) (NumNeurons L + 1) (m_mini_batch_size L);
  cfg_error_signal :
    has_extents (m_error_signal L) (P + 1) (m_mini_batch_size L);
  cfg_preactivations :
    has_extents (m_preactivations L) (NumNeurons L + 1) (m_mini_batch_size L);
  cfg_activations :
    has_extents (m_activations L) (NumNeurons L + 1) (m_mini_batch_size L);
  cfg_prev_activations :
    has_extents (m_prev_activations L) (P + 1) (m_mini_batch_size L);
  cfg_weights_v :
    views L weights_v
    = Build_view weights (Build_IR 0 (NumNeurons L + 1)) (Build_IR 0 (P + 1));
  cfg_weights_gradient_v :
    views L weights_gradient_v
    = Build_view weights_gradient (Build_IR 0 (NumNeurons L + 1))
                 (Build_IR 0 (P + 1))
}.

End LayerState.

(** [Layer::setup], the base class method [FullyConnectedLayer::setup]
    calls first.  It is defined in [lbann_layer.cpp], which is not part of
    the sources at hand, and is taken as it comes. *)
Class BaseLayer (O : DataOps) (Opt : OptimizerOps O) : Type := {
  Layer_setup : Layer -> nat -> Layer
}.

Section Methods.
Context {O : DataOps} {Opt : OptimizerOps O} {Rnd : RandomOps O}
        {Base : BaseLayer Opt} {Mpi : MpiOps O}.

Import weight_initialization.

(** [gaussian_fill(mat, m, n, mean, stddev)] and
    [uniform_fill(mat, m, n, center, radius)] on a view. *)
Definition gaussian_fill (L : Layer) (mat : view) (m n : nat)
           (mean stddev : DataType) : Layer :=
  assign L mat (mk_mat m n (gaussian_draw mean stddev)).

Definition uniform_fill (L : Layer) (mat : view) (m n : nat)
           (center radius : DataType) : Layer :=
  assign L mat (mk_mat m n (uniform_draw center radius)).

(** The guarded store of [setup], as the process [me] executes it:
    [if (m_weights->IsLocal(NumNeurons, numPrevNeurons))
       m_weights->SetLocal(LocalHeight()-1, LocalWidth()-1, DataType(1))]. *)
Definition set_bias_entry (g : Grid) (N P : nat) (me : Proc) (W : Mat) : Mat :=
  if IsLocal g me MC MR N P
  then SetLocal g me MC MR W (LocalHeight g me MC W - 1)
                (LocalWidth g me MR W - 1) d_one
  else W.

(** [FullyConnectedLayer::setup], block by block as the source comments
    them. *)

(** [if (optimizer != NULL) optimizer->setup(numPrevNeurons+1, NumNeurons+1)] *)
Definition setup_optimizer (L : Layer) (numPrevNeurons : nat) : Layer :=
  match optimizer L with
  | Some o =>
      set_optimizer L (Some (Optimizer_setup o (numPrevNeurons + 1)
                                             (NumNeurons L + 1)))
  | None => L
  end.

(** "Initialize weight-bias matrix": [Zeros], then the guarded store, which
    every process of the grid executes. *)
Definition init_weight_bias_matrix (L : Layer) (numPrevNeurons : nat) : Layer :=
  let L := set_buffer L weights (Zeros (NumNeurons L + 1) (numPrevNeurons + 1)) in
  set_buffer L weights
             (spmd (comm L) (set_bias_entry (comm L) (NumNeurons L) numPrevNeurons)
                   (m_weights L)).

(** "Initialize weights": the local view [weights] and the switch on the
    initialization policy. *)
Definition init_weights (L : Layer) (numPrevNeurons : nat) : Layer :=
  let weights_ := Build_view weights (Build_IR 0 (NumNeurons L))
                             (Build_IR 0 numPrevNeurons) in
  let h := Height (deref L weights_) in
  let w := Width (deref L weights_) in
  match m_weight_initialization L with
  | uniform => uniform_fill L weights_ h w d_zero d_one
  | normal => gaussian_fill L weights_ h w d_zero d_one
  | glorot_normal =>
      let var := (d_of_nat 2 / d_of_nat (numPrevNeurons + NumNeurons L))%D in
      gaussian_fill L weights_ h w d_zero (d_sqrt var)
  | glorot_uniform =>
      let var := (d_of_nat 2 / d_of_nat (numPrevNeurons + NumNeurons L))%D in
      uniform_fill L weights_ h w d_zero (d_sqrt (d_of_nat 3 * var)%D)
  | he_normal =>
      let var := (d_one / d_of_nat numPrevNeurons)%D in
      gaussian_fill L weights_ h w d_zero (d_sqrt var)
  | he_uniform =>
      let var := (d_one / d_of_nat numPrevNeurons)%D in
      uniform_fill L weights_ h w d_zero (d_sqrt (d_of_nat 3 * var)%D)
  | zero | unlisted _ => assign L weights_ (Zero (deref L weights_))
  end.

(** "Initialize other matrices" *)
Definition init_other_matrices (L : Layer) (numPrevNeurons : nat) : Layer :=
  let L := set_buffer L weights_gradient
             (Zeros (NumNeurons L + 1) (numPrevNeurons + 1)) in
  let L := set_buffer L prev_error_signal
             (Zeros (NumNeurons L + 1) (m_mini_batch_size L)) in
  let L := set_buffer L error_signal
             (Zeros (numPrevNeurons + 1) (m_mini_batch_size L)) in
  let L := set_buffer L preactivations
             (Zeros (NumNeurons L + 1) (m_mini_batch_size L)) in
  let L := View L WB_view weights
                (Build_IR 0 (Height (m_weights L) - 1))
                (Build_IR 0 (Width (m_weights L))) in
  let L := View L WB_D_view weights_gradient
                (Build_IR 0 (Height (m_weights_gradient L) - 1))
                (Build_IR 0 (Width (m_weights_gradient L))) in
  let L := set_buffer L activations
             (Zeros (NumNeurons L + 1) (m_mini_batch_size L)) in
  let L := View L Acts_view activations
                (Build_IR 0 (Height (m_activations L) - 1))
                (Build_IR 0 (Width (m_activations L))) in
  set_buffer L prev_activations
             (Zeros (numPrevNeurons + 1) (m_mini_batch_size L)).

(** "Create a view of the weights matrix" *)
Definition create_weights_views (L : Layer) : Layer :=
  let L := View L weights_v weights
                (Build_IR 0 (Height (m_weights L)))
                (Build_IR 0 (Width (m_weights L))) in
  View L weights_gradient_v weights_gradient
       (Build_IR 0 (Height (m_weights_gradient L)))
       (Build_IR 0 (Width (m_weights_gradient L))).

Definition setup (L : Layer) (numPrevNeurons : nat) : Layer :=
  let L := Layer_setup L numPrevNeurons in
  let L := setup_optimizer L numPrevNeurons in
  let L := init_weight_bias_matrix L numPrevNeurons in
  let L := init_weights L numPrevNeurons in
  let L := init_other_matrices L numPrevNeurons in
  create_weights_views L.

(** The table of initialization policies as the specification words it: the
    value at entry [(i, j)] of the block of true weights, for a layer of [N]
    neurons behind [P] neurons. *)
Definition spec_policy_draws (init : weight_initialization.t) (N P : nat)
  : nat -> nat -> DataType :=
  match init with
  | zero | unlisted _ => fun _ _ => d_zero
  | uniform => uniform_draw d_zero d_one
  | normal => gaussian_draw d_zero d_one
  | glorot_normal =>
      gaussian_draw d_zero (d_sqrt (d_of_nat 2 / d_of_nat (P + N))%D)
  | glorot_uniform =>
      uniform_draw d_zero (d_sqrt (d_of_nat 3 * (d_of_nat 2 / d_of_nat (P + N)))%D)
  | he_normal => gaussian_draw d_zero (d_sqrt (d_one / d_of_nat P)%D)
  | he_uniform => uniform_draw d_zero (d_sqrt (d_of_nat 3 / d_of_nat P)%D)
  end.

(** The local loop of [computeCost] on the process [p]: the entries of
    column 0 of [norms] that [p] stores, added up from [0.0].  [norms] is a
    [ColSumMat]: [ColumnTwoNorms] of a matrix distributed [MC, MR] fills a
    column vector distributed [MR, STAR]. *)
Definition local_total_error (g : Grid) (p : Proc) (norms : Mat) : DataType :=
  fold_left (fun total_error r => (total_error + GetLocal g p MR STAR norms r 0)%D)
            (seq 0 (LocalHeight g p MR norms)) d_zero.

(** [FullyConnectedLayer::computeCost], on the process [me] of the grid. *)
Definition computeCost (g : Grid) (me : Proc) (deltas : Mat) : DataType :=
  let norms := ColumnTwoNorms deltas in
  let total_error := local_total_error g me norms in
  let total_error :=
    AllReduce total_error
              (map (fun p => local_total_error g p norms) (DistComm g me MR)) in
  let avg_error := (total_error / d_of_nat (Height norms))%D in
  avg_error.

(** A call the layer makes to its optimizer. *)
Inductive optimizer_call : Type :=
| update_weight_bias_matrix_call (WB_D WB : Mat).

(** [Layer::update]: the value returned, the layer afterwards and the calls
    made to the optimizer. *)
Definition Layer_update (L : Layer) : bool * Layer * list optimizer_call :=
  (false, L, []).

(** [FullyConnectedLayer::update]; [None] is the dereference of a null
    [optimizer]. *)
Definition update (L : Layer) : option (bool * Layer * list optimizer_call) :=
  if execution_mode.is_training (m_execution_mode L) then
    match optimizer L with
    | Some o =>
        let '(o', WB) :=
          update_weight_bias_matrix o (m_weights_gradient L) (m_weights L) in
        Some (true,
              set_optimizer (set_buffer L weights WB) (Some o'),
              [update_weight_bias_matrix_call (m_weights_gradient L) (m_weights L)])
    | None => None
    end
  else Some (true, L, []).

(** *** The gradient checker *)

(** What [checkGradient] prints on a process: the entry of the sweep and the
    matrices handed to [Print]. *)
Inductive diagnostic : Type :=
| BAD_ENTRY_Acts_E1 (row col : nat) (Acts_E1 Acts : Mat)
| BAD_ENTRY_Acts_E2 (row col : nat) (Acts_E2 : Mat).

(** The local variables of [checkGradient]. *)
Record checker_state : Type := Build_checker_state {
  WB_E1 : Mat;
  WB_E2 : Mat;
  Zs_E1 : Mat;
  Zs_E2 : Mat;
  Acts_E1 : Mat;
  Acts_E2 : Mat;
  grad_diff : DataType;
  grad_sum : DataType;
  sum_error : DataType;
  prow : nat;
  pcol : nat;
  printed : list diagnostic
}.

(** [if (M.IsLocal(r, c)) M.SetLocal(M.LocalRow(r), M.LocalCol(c),
                                     f(M.GetLocal(M.LocalRow(r), M.LocalCol(c))))] *)
Definition update_if_local (g : Grid) (me : Proc) (M : Mat) (r c : nat)
           (f : DataType -> DataType) : Mat :=
  if IsLocal g me MC MR r c then
    let _r := LocalRow g me MC r in
    let _c := LocalCol g me MR c in
    SetLocal g me MC MR M _r _c (f (GetLocal g me MC MR M _r _c))
  else M.

(** The two loops over [r] and [c] for one of the scratch matrices: whether
    an entry the process stores exceeds [1e-12] in absolute value in a row
    other than [row]. *)
Definition bad_entries (g : Grid) (me : Proc) (acts Acts_E : Mat) (row : nat) : bool :=
  fold_left
    (fun bad r =>
       fold_left
         (fun bad c =>
            if IsLocal g me MC MR r c then
              let _r := LocalRow g me MC r in
              let _c := LocalCol g me MR c in
              let x := GetLocal g me MC MR Acts_E _r _c in
              if (d_ltb d_tol x || d_ltb x (- d_tol)%D) && negb (r =? row)
              then true else bad
            else bad)
         (seq 0 (Width acts)) bad)
    (seq 0 (Height acts)) false.

(** The body of the loops over [row] and [col]. *)
Definition checker_step (g : Grid) (me : Proc) (L : Layer) (Epsilon : DataType)
           (st : checker_state) (entry : nat * nat) : checker_state :=
  let (row, col) := entry in
  let E1 := update_if_local g me (WB_E1 st) (prow st) (pcol st)
                            (fun x => (x - Epsilon)%D) in
  let E2 := update_if_local g me (WB_E2 st) (prow st) (pcol st)
                            (fun x => (x + Epsilon)%D) in
  let E1 := update_if_local g me E1 row col (fun x => (x + Epsilon)%D) in
  let E2 := update_if_local g me E2 row col (fun x => (x - Epsilon)%D) in
  (* the forward passes on WB_E1 and WB_E2 are commented out in the source *)
  let A1 := Axpy (- d_one)%D (m_activations L) (Acts_E1 st) in
  let A2 := Axpy (- d_one)%D (m_activations L) (Acts_E2 st) in
  let bad_E1 := bad_entries g me (m_activations L) A1 row in
  let bad_E2 := bad_entries g me (m_activations L) A2 row in
  let out :=
    printed st
    ++ (if bad_E1 then [BAD_ENTRY_Acts_E1 row col A1 (m_activations L)] else [])
    ++ (if bad_E2 then [BAD_ENTRY_Acts_E2 row col A2] else []) in
  Build_checker_state E1 E2 (Zs_E1 st) (Zs_E2 st) A1 A2
                      (grad_diff st) (grad_sum st) (sum_error st) row col out.

(** The entries [(row, col)] in the order the two loops visit them. *)
Definition sweep (h w : nat) : list (nat * nat) :=
  flat_map (fun row => map (fun col => (row, col)) (seq 0 w)) (seq 0 h).

(** The local variables when the loops are entered. *)
Definition checker_init (g : Grid) (me : Proc) (L : Layer) (Epsilon : DataType)
  : checker_state :=
  let E1 := Copy (m_weights L) in
  let E2 := Copy (m_weights L) in
  let E1 := update_if_local g me E1 0 0 (fun x => (x + Epsilon)%D) in
  let E2 := update_if_local g me E2 0 0 (fun x => (x - Epsilon)%D) in
  Build_checker_state
    E1 E2
    (Zeros (Height (m_preactivations L)) (Width (m_preactivations L)))
    (Zeros (Height (m_preactivations L)) (Width (m_preactivations L)))
    (Zeros (Height (m_activations L)) (Width (m_activations L)))
    (Zeros (Height (m_activations L)) (Width (m_activations L)))
    d_zero d_zero d_zero 0 0 [].

(** The local variables after the first [k] entries of the sweep. *)
Definition checker_after (g : Grid) (me : Proc) (L : Layer) (Epsilon : DataType)
           (k : nat) : checker_state :=
  fold_left (checker_step g me L Epsilon)
            (firstn k (sweep (Height (m_weights L)) (Width (m_weights L))))
            (checker_init g me L Epsilon).

(** [FullyConnectedLayer::checkGradient], on the process [me]: the value
    returned and what was printed.  [PrevLayer] is not used by the body. *)
Definition checkGradient (g : Grid) (me : Proc) (L PrevLayer : Layer)
           (Epsilon : DataType) : DataType * list diagnostic :=
  let st := fold_left (checker_step g me L Epsilon)
                      (sweep (Height (m_weights L)) (Width (m_weights L)))
                      (checker_init g me L Epsilon) in
  let grad_error := d_sqrt (grad_diff st / grad_sum st)%D in
  (grad_error, printed st).

End Methods.

(** Two states of the checker that agree on what the result is computed
    from; the perturbed copies of the weights may differ. *)
Definition same_outputs {O : DataOps} (s t : checker_state) : Prop :=
  Acts_E1 s = Acts_E1 t /\ Acts_E2 s = Acts_E2 t
  /\ grad_diff s = grad_diff t /\ grad_sum s = grad_sum t
  /\ printed s = printed t.

(** ** Further definitions *)

Section FurtherDefinitions.
Context {O : DataOps} {Opt : OptimizerOps O}.

(** [Nrm2(A)]: the Frobenius norm of a matrix. *)
Definition Nrm2 (A : Mat) : DataType :=
  d_sqrt (sum_upto (Height A)
            (fun i => sum_upto (Width A) (fun j => (Get A i j * Get A i j)%D))).

(** [FullyConnectedLayer::WBL2norm] *)
Definition WBL2norm (L : Layer) : DataType :=
  let nrm2 := Nrm2 (m_weights L) in
  (nrm2 * nrm2)%D.

(** Adding and subtracting a perturbation cancel, as in exact arithmetic. *)
Definition cancels : Prop :=
  (forall x e : DataType, (x + e - e)%D = x)
  /\ (forall x e : DataType, (x - e + e)%D = x).

(** The state of a perturbed copy [E] of the weights [W] on the process
    [me]: the entry [(r, c)] carries the perturbation [f] if the process
    stores it, every other entry is the weight. *)
Definition perturbed_at (g : Grid) (me : Proc) (W E : Mat) (r c : nat)
           (f : DataType -> DataType) : Prop :=
  Height E = Height W /\ Width E = Width W
  /\ forall i j, i < Height W -> j < Width W ->
       Get E i j
       = if (i =? r) && (j =? c) && IsLocal g me MC MR r c
         then f (Get W i j) else Get W i j.

(** Both perturbed copies carry their perturbation at [(prow, pcol)]. *)
Definition one_entry_perturbed (g : Grid) (me : Proc) (L : Layer)
           (Epsilon : DataType) (st : checker_state) : Prop :=
  perturbed_at g me (m_weights L) (WB_E1 st) (prow st) (pcol st)
               (fun x => (x + Epsilon)%D)
  /\ perturbed_at g me (m_weights L) (WB_E2 st) (prow st) (pcol st)
                  (fun x => (x - Epsilon)%D).

(** A matrix all of whose entries read as zero. *)
Definition all_zero (A : Mat) : Prop := forall i j, Get A i j = d_zero.

End FurtherDefinitions.

(** ** Instances over the rationals

    Exact rational scalars, a gradient descent optimizer, fixed draws, a base
    class whose [setup] does nothing and a summing collective: the concrete
    inputs of the examples below. *)

#[export] Instance Qc_ideal : Ideal Qc_ops.
Proof.
  constructor; cbn [DataType d_zero d_one d_add d_mul d_div d_neg d_sqrt d_of_nat
                    Qc_ops].
  - exact Qcplus_0_l.
  - exact Qcplus_0_r.
  - exact Qcmult_1_l.
  - exact Qcmult_0_l.
  - exact Qcmult_0_r.
  - intros x. ring.
  - intros x y. unfold Qcdiv. rewrite Qcmult_1_l. reflexivity.
  - intros n _. unfold Qcdiv. apply Qcmult_0_l.
  - apply Qc_is_canon. reflexivity.
Qed.

(** Plain gradient descent: the optimizer state is the learning rate. *)
Definition sgd : OptimizerOps Qc_ops := {|
  Optimizer := Qc;
  Optimizer_setup := fun lr _ _ => lr;
  update_weight_bias_matrix := fun lr WB_D WB => (lr, Axpy (- lr)%D WB_D WB)
|}.

Definition fixed_draws : RandomOps Qc_ops := {|
  gaussian_draw := fun mean stddev i j => (mean + stddev * d_of_nat (i + j + 1))%D;
  uniform_draw := fun center radius i j => (center + radius / d_of_nat (i + j + 2))%D
|}.

Definition plain_base : BaseLayer sgd := {| Layer_setup := fun L _ => L |}.

Definition sum_reduce : MpiOps Qc_ops := {|
  AllReduce := fun _ all => fold_left Qcplus all (Q2Qc 0%Q)
|}.

#[export] Instance sum_reduce_laws : MpiLaws sum_reduce.
Proof.
  constructor; cbn [AllReduce sum_reduce DataType d_zero Qc_ops].
  - intros x. cbn [fold_left]. apply Qcplus_0_l.
  - intros all Hall. induction Hall as [| x l Hx _ IH]; cbn [fold_left].
    + reflexivity.
    + rewrite Hx, Qcplus_0_l. exact IH.
Qed.

(** The rational [n]. *)
Definition q (n : nat) : Qc := Qc_of_nat n.

(** The grid of one process, and that process. *)
Definition grid_1x1 : Grid := Build_Grid 1 1.
Definition proc_0 : Proc := Build_Proc 0 0.

(** A layer of one neuron behind one neuron at mini-batch size two, as the
    constructor leaves it and as [setup] configures it. *)
Definition fresh_layer : @Layer Qc_ops sgd :=
  @Build_Layer Qc_ops sgd 1 execution_mode.training weight_initialization.zero
               (fun _ => Zeros 0 0)
               (fun _ => Build_view weights (Build_IR 0 0) (Build_IR 0 0))
               (Some (Q2Qc (1 # 2)%Q : @Optimizer Qc_ops sgd)) grid_1x1 2 2.

Definition configured_layer : @Layer Qc_ops sgd :=
  @setup Qc_ops sgd fixed_draws plain_base fresh_layer 1.

(** The configured layer with weight 2 and bias 3, previous activations
    [a0] and [a1] in the two columns and incoming error signals [(e0, r0)]
    and [(e1, r1)]. *)
Definition sample_layer (a0 a1 e0 r0 e1 r1 : nat) : @Layer Qc_ops sgd :=
  let L := set_buffer configured_layer weights
                      (of_rows [[q 2; q 3]; [q 0; q 1]]) in
  let L := set_buffer L prev_activations (of_rows [[q a0; q a1]; [q 1; q 1]]) in
  set_buffer L prev_error_signal (of_rows [[q e0; q e1]; [q r0; q r1]]).

(** Two layers stacked: [upper_layer] is the layer above, with incoming
    error signal [(1, 0)] in its first column, and [lower_layer] the layer
    below it, whose incoming error signal is the error signal the upper
    layer's backward step hands down. *)
Definition upper_layer : @Layer Qc_ops sgd := sample_layer 1 5 1 0 7 0.

Definition lower_layer : @Layer Qc_ops sgd :=
  set_buffer (sample_layer 1 5 0 0 0 0) prev_error_signal
             (m_error_signal (bp_linearity (fp_set_std_matrix_view upper_layer 1))).

(** The sample layer after a forward step, and the same layer with other
    weights behind the same activations. *)
Definition checked_layer : @Layer Qc_ops sgd :=
  fp_linearity (fp_set_std_matrix_view (sample_layer 1 5 1 0 7 0) 2).

Definition checked_layer_other_weights : @Layer Qc_ops sgd :=
  set_buffer checked_layer weights (of_rows [[q 7; q 9]; [q 0; q 1]]).

(** A residual matrix of two rows and one column, of norm 3. *)
Definition sample_deltas : @Mat Qc_ops := of_rows [[q 3]; [q 0]].

(** The sample residual matrix with a row of zeros below it, and a residual
    matrix of two rows and no column. *)
Definition padded_deltas : @Mat Qc_ops := of_rows [[q 3]; [q 0]; [q 0]].

Definition no_columns : @Mat Qc_ops := of_rows [[]; []].

(** The fresh layer without an optimizer. *)
Definition fresh_layer_no_optimizer : @Layer Qc_ops sgd :=
  set_optimizer fresh_layer None.

(** ** Proof automation *)

Create HintDb mat.
Create Rewrite HintDb mat_dims.

(** Unfolds the matrix operations to [mk_mat] and rewrites the extents. *)
Ltac dims :=
  unfold has_extents, whole, first_columns, matmul, scale, view_read,
    view_write, Gemm, orient, transpose, ir_len;
  cbn [ir_beg ir_end];
  autorewrite with mat_dims;
  rewrite ?Nat.sub_0_r.

(** Replaces the comparisons [a <? b] that [lia] decides by [true]. *)
Ltac ltb_true :=
  repeat match goal with
         | |- context [?a <? ?b] =>
             replace (a <? b) with true by (symmetry; apply Nat.ltb_lt; lia)
         end.

(** * Properties *)

Section MatrixFacts.
Context {O : DataOps}.

(** *** Facts about [mk_mat] *)

Lemma Height_mk_mat h w f : Height (mk_mat h w f) = h.
Proof. reflexivity. Qed.

Lemma Width_mk_mat h w f : Width (mk_mat h w f) = w.
Proof. reflexivity. Qed.

Lemma Get_mk_mat h w f i j :
  i < h -> j < w -> Get (mk_mat h w f) i j = f i j.
Proof.
  intros Hi Hj. unfold Get, mk_mat. simpl.
  rewrite (nth_indep _ [] (map (f 0) (seq 0 w))) by (rewrite length_map, length_seq; exact Hi).
  rewrite (map_nth (fun i => map (f i) (seq 0 w)) (seq 0 h) 0 i).
  rewrite seq_nth by exact Hi. simpl.
  rewrite (nth_indep _ d_zero (f i 0)) by (rewrite length_map, length_seq; exact Hj).
  rewrite (map_nth (f i) (seq 0 w) 0 j).
  rewrite seq_nth by exact Hj. reflexivity.
Qed.

Lemma Get_mk_mat_outside h w f i j :
  h <= i \/ w <= j -> Get (mk_mat h w f) i j = d_zero.
Proof.
  intros Hout. unfold Get, mk_mat. simpl.
  destruct (Nat.lt_ge_cases i h) as [Hi | Hi].
  - rewrite (nth_indep _ [] (map (f 0) (seq 0 w))) by (rewrite length_map, length_seq; exact Hi).
    rewrite (map_nth (fun i => map (f i) (seq 0 w)) (seq 0 h) 0 i).
    apply nth_overflow. rewrite length_map, length_seq. lia.
  - rewrite (nth_overflow (map _ _)) by (rewrite length_map, length_seq; exact Hi).
    destruct j; reflexivity.
Qed.

Lemma nth_rows_mk_mat h w f i :
  i < h -> nth i (rows (mk_mat h w f)) [] = map (f i) (seq 0 w).
Proof.
  intros Hi. unfold mk_mat. cbn [rows].
  rewrite (nth_indep _ [] (map (f 0) (seq 0 w)))
    by (rewrite length_map, length_seq; exact Hi).
  rewrite (map_nth (fun i => map (f i) (seq 0 w)) (seq 0 h) 0 i).
  rewrite seq_nth by exact Hi. reflexivity.
Qed.

Lemma map_const (l : list nat) (f : nat -> DataType) (c : DataType) :
  (forall k, In k l -> f k = c) -> map f l = repeat c (length l).
Proof.
  intros E. induction l as [| a l IH]; simpl.
  - reflexivity.
  - rewrite (E a) by (left; reflexivity). f_equal.
    apply IH. intros k Hk. apply E. right. exact Hk.
Qed.

Lemma mk_mat_ext h w f g :
  (forall i j, i < h -> j < w -> f i j = g i j) -> mk_mat h w f = mk_mat h w g.
Proof.
  intros E. unfold mk_mat. f_equal.
  apply map_ext_in. intros i Hi. apply in_seq in Hi.
  apply map_ext_in. intros j Hj. apply in_seq in Hj.
  apply E; lia.
Qed.

Lemma sum_upto_ext n f g :
  (forall k, k < n -> f k = g k) -> sum_upto n f = sum_upto n g.
Proof.
  intros E. unfold sum_upto. generalize d_zero.
  assert (Hin : forall k, In k (seq 0 n) -> f k = g k)
    by (intros k Hk; apply in_seq in Hk; apply E; lia).
  induction (seq 0 n) as [| a l IH]; intros acc; simpl.
  - reflexivity.
  - rewrite (Hin a) by (left; reflexivity).
    apply IH. intros k Hk. apply Hin. right. exact Hk.
Qed.

Lemma fold_add_zeros (l : list nat) (f : nat -> DataType) :
  (forall x : DataType, (d_zero + x)%D = x) ->
  (forall k, In k l -> f k = d_zero) ->
  fold_left (fun acc k => (acc + f k)%D) l d_zero = d_zero.
Proof.
  intros A0 E. induction l as [| a l IH]; simpl.
  - reflexivity.
  - rewrite (E a) by (left; reflexivity). rewrite A0.
    apply IH. intros k Hk. apply E. right. exact Hk.
Qed.

Lemma sum_upto_zeros n f :
  (forall x : DataType, (d_zero + x)%D = x) ->
  (forall k, k < n -> f k = d_zero) -> sum_upto n f = d_zero.
Proof.
  intros A0 E. apply fold_add_zeros; [exact A0 |].
  intros k Hk. apply in_seq in Hk. apply E. lia.
Qed.

Lemma wf_mk_mat h w f : wf (mk_mat h w f).
Proof.
  unfold wf. rewrite Height_mk_mat, Width_mk_mat.
  apply mk_mat_ext. intros i j Hi Hj. symmetry. apply Get_mk_mat; assumption.
Qed.

Lemma mat_ext (A B : Mat) :
  wf A -> wf B -> Height A = Height B -> Width A = Width B ->
  (forall i j, i < Height A -> j < Width A -> Get A i j = Get B i j) ->
  A = B.
Proof.
  intros WA WB EH EW E. rewrite WA, WB, <- EH, <- EW.
  apply mk_mat_ext. exact E.
Qed.

Lemma wf_view_read A I J : wf (view_read A I J).
Proof. apply wf_mk_mat. Qed.

Lemma wf_view_write A I J X : wf (view_write A I J X).
Proof. apply wf_mk_mat. Qed.

Lemma wf_Gemm oA oB alpha A B beta C : wf (Gemm oA oB alpha A B beta C).
Proof. apply wf_mk_mat. Qed.

Lemma wf_matmul A B : wf (matmul A B).
Proof. apply wf_mk_mat. Qed.

Lemma wf_scale alpha A : wf (scale alpha A).
Proof. apply wf_mk_mat. Qed.

Lemma wf_transpose A : wf (transpose A).
Proof. apply wf_mk_mat. Qed.

Lemma wf_Zeros m n : wf (Zeros m n).
Proof. apply wf_mk_mat. Qed.

Lemma wf_Axpy alpha X Y : wf (Axpy alpha X Y).
Proof. apply wf_mk_mat. Qed.

Lemma wf_Set_ A i j v : wf (Set_ A i j v).
Proof. apply wf_mk_mat. Qed.

Lemma in_IR_0 n i : in_IR (Build_IR 0 n) i = (i <? n).
Proof. reflexivity. Qed.

Lemma Get_view_read A I J i j :
  i < ir_len I -> j < ir_len J ->
  Get (view_read A I J) i j = Get A (ir_beg I + i) (ir_beg J + j).
Proof. intros Hi Hj. unfold view_read. rewrite Get_mk_mat by assumption; reflexivity. Qed.

Lemma Get_view_write A I J X i j :
  i < Height A -> j < Width A ->
  Get (view_write A I J X) i j
  = if in_IR I i && in_IR J j
    then Get X (i - ir_beg I) (j - ir_beg J) else Get A i j.
Proof. intros Hi Hj. unfold view_write. rewrite Get_mk_mat by assumption; reflexivity. Qed.

Lemma Get_transpose A i j :
  i < Width A -> j < Height A -> Get (transpose A) i j = Get A j i.
Proof. intros Hi Hj. unfold transpose. rewrite Get_mk_mat by assumption; reflexivity. Qed.

Lemma Get_matmul A B i j :
  i < Height A -> j < Width B ->
  Get (matmul A B) i j = sum_upto (Width A) (fun k => (Get A i k * Get B k j)%D).
Proof. intros Hi Hj. unfold matmul. rewrite Get_mk_mat by assumption; reflexivity. Qed.

Lemma Get_scale alpha A i j :
  i < Height A -> j < Width A -> Get (scale alpha A) i j = (alpha * Get A i j)%D.
Proof. intros Hi Hj. unfold scale. rewrite Get_mk_mat by assumption; reflexivity. Qed.

Lemma Get_Gemm oA oB alpha A B beta C i j :
  i < Height C -> j < Width C ->
  Get (Gemm oA oB alpha A B beta C) i j
  = (alpha * sum_upto (Width (orient oA A))
                      (fun k => (Get (orient oA A) i k * Get (orient oB B) k j)%D)
     + beta * Get C i j)%D.
Proof. intros Hi Hj. unfold Gemm. rewrite Get_mk_mat by assumption; reflexivity. Qed.

Lemma Get_Zeros m n i j : Get (Zeros m n) i j = d_zero.
Proof.
  destruct (Nat.lt_ge_cases i m) as [Hi | Hi];
    [destruct (Nat.lt_ge_cases j n) as [Hj | Hj] |].
  - unfold Zeros. rewrite Get_mk_mat by assumption; reflexivity.
  - apply Get_mk_mat_outside. right. exact Hj.
  - apply Get_mk_mat_outside. left. exact Hi.
Qed.

Lemma Get_Set_ A i j v a b :
  a < Height A -> b < Width A ->
  Get (Set_ A i j v) a b = if (a =? i) && (b =? j) then v else Get A a b.
Proof. intros Ha Hb. unfold Set_. rewrite Get_mk_mat by assumption; reflexivity. Qed.

Lemma Get_Axpy alpha X Y i j :
  i < Height Y -> j < Width Y ->
  Get (Axpy alpha X Y) i j = (alpha * Get X i j + Get Y i j)%D.
Proof. intros Hi Hj. unfold Axpy. rewrite Get_mk_mat by assumption; reflexivity. Qed.

(** With exact arithmetic, [Gemm] with [alpha = 1] and [beta = 0] stores the
    product, and with [beta = 0] alone the scaled product. *)
Lemma Gemm_beta_zero `{!Ideal O} oA oB alpha A B C i j :
  i < Height C -> j < Width C ->
  Get (Gemm oA oB alpha A B d_zero C) i j
  = (alpha * sum_upto (Width (orient oA A))
                      (fun k => (Get (orient oA A) i k * Get (orient oB B) k j)%D))%D.
Proof.
  intros Hi Hj. rewrite Get_Gemm by assumption.
  rewrite mul_0_l, add_0_r. reflexivity.
Qed.

End MatrixFacts.

#[export] Hint Resolve wf_mk_mat wf_view_read wf_view_write wf_Gemm wf_matmul
  wf_scale wf_transpose wf_Zeros wf_Axpy wf_Set_ : mat.
#[export] Hint Rewrite @Height_mk_mat @Width_mk_mat : mat_dims.

(** *** Facts about the distribution *)

Lemma Length_owned (n shift stride : nat) :
  0 < stride -> shift < stride -> n mod stride = shift ->
  shift + (Length_ (S n) shift stride - 1) * stride = n.
Proof.
  intros Hs Hlt Hmod. unfold Length_.
  assert (Hle : shift <= n)
    by (rewrite <- Hmod; apply Nat.Div0.mod_le).
  assert (Hlt' : (shift <? S n) = true) by (apply Nat.ltb_lt; lia).
  rewrite Hlt'.
  replace (S n - shift - 1) with (n - shift) by lia.
  replace ((n - shift) / stride + 1 - 1) with ((n - shift) / stride) by lia.
  pose proof (Nat.div_mod_eq n stride) as Hdm. rewrite Hmod in Hdm.
  assert (Hq : (n - shift) / stride = n / stride).
  { replace (n - shift) with (n / stride * stride) by nia.
    apply Nat.div_mul. lia. }
  rewrite Hq. nia.
Qed.

Lemma Length_LocalRow (i shift stride : nat) :
  0 < stride -> shift < stride -> i mod stride = shift ->
  shift + Length_ i shift stride * stride = i.
Proof.
  intros Hs Hlt Hmod. unfold Length_.
  assert (Hle : shift <= i) by (rewrite <- Hmod; apply Nat.Div0.mod_le).
  pose proof (Nat.div_mod_eq i stride) as Hdm. rewrite Hmod in Hdm.
  destruct (shift <? i) eqn:E.
  - apply Nat.ltb_lt in E.
    assert (Hq1 : 1 <= i / stride).
    { destruct (i / stride) eqn:Eq; [lia | lia]. }
    assert (Hq : (i - shift - 1) / stride = i / stride - 1).
    { replace (i - shift - 1) with ((i / stride - 1) * stride + (stride - 1)) by nia.
      rewrite Nat.div_add_l by lia.
      rewrite (Nat.div_small (stride - 1) stride) by lia. lia. }
    rewrite Hq. nia.
  - apply Nat.ltb_ge in E. lia.
Qed.


(** ** The linearity of the forward and the backward step *)

Section LinearityFacts.
Context {O : DataOps} {Opt : OptimizerOps O}.

(** The two stores of [bp_linearity], once the views are resolved to the
    buffers they alias. *)
Lemma bp_linearity_stores (L : Layer) (P b : nat) :
  configured L P ->
  let L' := bp_linearity (fp_set_std_matrix_view L b) in
  let rows_W := Build_IR 0 (NumNeurons L + 1) in
  let cols_W := Build_IR 0 (P + 1) in
  let rows_E := Build_IR 0 (Height (m_error_signal L)) in
  let cols_b := Build_IR 0 b in
  m_error_signal L'
  = view_write (m_error_signal L) rows_E cols_b
      (Gemm TRANSPOSE NORMAL d_one
            (view_read (m_weights L) rows_W cols_W)
            (first_columns b (m_prev_error_signal L))
            d_zero (view_read (m_error_signal L) rows_E cols_b))
  /\ m_weights_gradient L'
     = view_write (m_weights_gradient L) rows_W cols_W
         (Gemm NORMAL TRANSPOSE
               (d_one / d_of_nat (get_effective_minibatch_size L))%D
               (first_columns b (m_prev_error_signal L))
               (first_columns b (m_prev_activations L))
               d_zero (view_read (m_weights_gradient L) rows_W cols_W))
  /\ views L' error_signal_v = Build_view error_signal rows_E cols_b.
Proof.
  intros C. destruct C as [_ _ _ _ _ _ _ Vw Vg]. cbv zeta.
  unfold bp_linearity, Gemm_views, assign, deref, fp_set_std_matrix_view.
  simpl. rewrite Vw, Vg. simpl. repeat split.
Qed.

(** Entry [(i, j)] of the weight gradient after [bp_linearity]. *)
Lemma bp_linearity_gradient_entry `{!Ideal O} (L : Layer) (P b i j : nat) :
  configured L P -> i < NumNeurons L + 1 -> j < P + 1 ->
  Get (m_weights_gradient (bp_linearity (fp_set_std_matrix_view L b))) i j
  = (d_one / d_of_nat (get_effective_minibatch_size L)
     * sum_upto b (fun k => (Get (m_prev_error_signal L) i k
                             * Get (m_prev_activations L) j k)%D))%D.
Proof.
  intros C Hi Hj.
  destruct (bp_linearity_stores b C) as (_ & E & _). rewrite E. clear E.
  destruct C as [_ [HG1 HG2] [HE1 HE2] _ _ _ [HA1 HA2] _ _].
  rewrite Get_view_write by lia. rewrite !in_IR_0. ltb_true.
  cbn [andb ir_beg]. rewrite !Nat.sub_0_r.
  rewrite Gemm_beta_zero by (dims; lia).
  dims. f_equal. apply sum_upto_ext. intros k Hk.
  repeat (rewrite Get_mk_mat by lia). reflexivity.
Qed.

Lemma bp_linearity_gradient_extents (L : Layer) (P b : nat) :
  configured L P ->
  let dW := m_weights_gradient (bp_linearity (fp_set_std_matrix_view L b)) in
  wf dW /\ has_extents dW (NumNeurons L + 1) (P + 1).
Proof.
  intros C. cbv zeta.
  destruct (bp_linearity_stores b C) as (_ & E & _). rewrite E. clear E.
  destruct C as [_ [HG1 HG2] _ _ _ _ _ _ _].
  split; [auto with mat | dims; split; assumption].
Qed.

(** Entry [(i, j)] of the propagated error signal after [bp_linearity]. *)
Lemma bp_linearity_error_entry `{!Ideal O} (L : Layer) (P b i j : nat) :
  configured L P -> b <= m_mini_batch_size L -> i < P + 1 -> j < b ->
  Get (m_error_signal (bp_linearity (fp_set_std_matrix_view L b))) i j
  = sum_upto (NumNeurons L + 1)
             (fun k => (Get (m_weights L) k i * Get (m_prev_error_signal L) k j)%D).
Proof.
  intros C Hb Hi Hj.
  destruct (bp_linearity_stores b C) as (E & _ & _). rewrite E. clear E.
  destruct C as [[HW1 HW2] _ [HE1 HE2] [HS1 HS2] _ _ _ _ _].
  rewrite Get_view_write by lia. rewrite !in_IR_0. ltb_true.
  cbn [andb ir_beg]. rewrite !Nat.sub_0_r.
  rewrite Gemm_beta_zero by (dims; lia).
  rewrite mul_1_l. dims. apply sum_upto_ext. intros k Hk.
  repeat (rewrite Get_mk_mat by lia). reflexivity.
Qed.

(** C1.  One backward step of the linearity, with the views bound to the
    first [b] columns and effective mini-batch size [m]: the error signal
    view holds [W^T E_next], of [P+1] rows and [b] columns, and the weight
    gradient is [(1/m) E_next A_prev^T], of [N+1] rows and [P+1] columns.  The
    divisor is the effective mini-batch size [m], whatever the width [b] of
    the views. *)
Theorem bp_linearity_computes `{!Ideal O} (L : Layer) (P b : nat) :
  configured L P ->
  b <= m_mini_batch_size L ->
  let W := whole (m_weights L) in
  let E_next := first_columns b (m_prev_error_signal L) in
  let A_prev := first_columns b (m_prev_activations L) in
  let m := get_effective_minibatch_size L in
  let L' := bp_linearity (fp_set_std_matrix_view L b) in
  let E := deref L' (views L' error_signal_v) in
  E = matmul (transpose W) E_next
  /\ has_extents E (P + 1) b
  /\ m_weights_gradient L'
     = scale (d_one / d_of_nat m)%D (matmul E_next (transpose A_prev))
  /\ has_extents (m_weights_gradient L') (NumNeurons L + 1) (P + 1).
Proof.
  intros C Hb. cbv zeta.
  destruct (bp_linearity_stores b C) as (_ & _ & V). cbv zeta in V.
  rewrite V. clear V. unfold deref. cbn [v_of v_rows v_cols].
  fold (m_error_signal (bp_linearity (fp_set_std_matrix_view L b))).
  pose proof C as [[HW1 HW2] _ [HE1 HE2] [HS1 HS2] _ _ [HA1 HA2] _ _].
  assert (EE : view_read (m_error_signal (bp_linearity (fp_set_std_matrix_view L b)))
                         (Build_IR 0 (Height (m_error_signal L))) (Build_IR 0 b)
               = matmul (transpose (whole (m_weights L)))
                        (first_columns b (m_prev_error_signal L))).
  { apply mat_ext; [solve [auto with mat] | solve [auto with mat] | | |].
    - dims. lia.
    - dims. reflexivity.
    - intros i j. dims. intros Hi Hj.
      rewrite Get_mk_mat by lia. rewrite !Nat.add_0_l.
      rewrite (bp_linearity_error_entry C) by lia.
      rewrite Get_mk_mat by lia. rewrite HW1.
      apply sum_upto_ext. intros k Hk.
      repeat (rewrite Get_mk_mat by lia). reflexivity. }
  split; [exact EE |].
  split; [rewrite EE; dims; lia |].
  destruct (bp_linearity_gradient_extents b C) as [WF [X1 X2]].
  split; [| split; assumption].
  apply mat_ext; [exact WF | solve [auto with mat] | | |].
  - rewrite X1. dims. lia.
  - rewrite X2. dims. lia.
  - rewrite X1, X2. intros i j Hi Hj.
    rewrite (bp_linearity_gradient_entry b C) by assumption.
    dims. repeat (rewrite Get_mk_mat by lia).
    f_equal. apply sum_upto_ext. intros k Hk.
    repeat (rewrite Get_mk_mat by lia). reflexivity.
Qed.

(** C2.  The weight gradient of a backward step of width [b] is determined
    by the first [b] columns of the previous activations and of the incoming
    error signal (as [bp_linearity] reads them): two layers that agree there,
    and differ at will in the columns from [b] on, in the error signal they
    hand down and in the old gradient, end with the same weight gradient. *)
Theorem bp_linearity_ignores_tail_columns `{!Ideal O} (L1 L2 : Layer) (P b : nat) :
  configured L1 P -> configured L2 P ->
  NumNeurons L1 = NumNeurons L2 ->
  get_effective_minibatch_size L1 = get_effective_minibatch_size L2 ->
  b < m_mini_batch_size L1 -> b < m_mini_batch_size L2 ->
  (forall i k, k < b ->
     Get (m_prev_activations L1) i k = Get (m_prev_activations L2) i k) ->
  (forall i k, k < b ->
     Get (m_prev_error_signal L1) i k = Get (m_prev_error_signal L2) i k) ->
  m_weights_gradient (bp_linearity (fp_set_std_matrix_view L1 b))
  = m_weights_gradient (bp_linearity (fp_set_std_matrix_view L2 b)).
Proof.
  intros C1 C2 EN Em _ _ EA EE.
  destruct (bp_linearity_gradient_extents b C1) as [WF1 [H1 W1]].
  destruct (bp_linearity_gradient_extents b C2) as [WF2 [H2 W2]].
  apply mat_ext; [exact WF1 | exact WF2 | | |].
  - rewrite H1, H2, EN. reflexivity.
  - rewrite W1, W2. reflexivity.
  - rewrite H1, W1. intros i j Hi Hj.
    rewrite (bp_linearity_gradient_entry b C1) by assumption.
    rewrite (bp_linearity_gradient_entry b C2) by (rewrite <- ?EN; assumption).
    rewrite Em. f_equal. apply sum_upto_ext. intros k Hk.
    rewrite EA, EE by exact Hk. reflexivity.
Qed.

(** C3.  The forward linearity multiplies the whole buffers: whatever the
    width [b] the views are bound to, the preactivations become
    [W A_prev] on all [m_mini_batch_size] columns, those from [b] on
    included, and the activations are a copy of the preactivations. *)
Theorem fp_linearity_full_width `{!Ideal O} (L : Layer) (P b : nat) :
  configured L P ->
  let L' := fp_linearity (fp_set_std_matrix_view L b) in
  m_preactivations L' = matmul (m_weights L) (m_prev_activations L)
  /\ has_extents (m_preactivations L') (NumNeurons L + 1) (m_mini_batch_size L)
  /\ (forall i j, i < NumNeurons L + 1 -> j < m_mini_batch_size L ->
        Get (m_preactivations L') i j
        = sum_upto (P + 1)
            (fun k => (Get (m_weights L) i k * Get (m_prev_activations L) k j)%D))
  /\ m_activations L' = m_preactivations L'.
Proof.
  intros C. cbv zeta.
  destruct C as [[HW1 HW2] _ _ _ [HZ1 HZ2] _ [HA1 HA2] _ _].
  unfold fp_linearity, fp_set_std_matrix_view, Copy.
  unfold m_preactivations, m_activations, m_weights, m_prev_activations in *.
  simpl.
  assert (EZ : Gemm NORMAL NORMAL d_one (store L weights) (store L prev_activations)
                    d_zero (store L preactivations)
               = matmul (store L weights) (store L prev_activations)).
  { apply mat_ext; [solve [auto with mat] | solve [auto with mat] | | |].
    - dims. lia.
    - dims. lia.
    - intros i j Hi Hj.
      assert (Hi' : i < Height (store L preactivations)) by exact Hi.
      assert (Hj' : j < Width (store L preactivations)) by exact Hj.
      rewrite Gemm_beta_zero by assumption. rewrite mul_1_l.
      rewrite Get_matmul by lia. reflexivity. }
  rewrite EZ. repeat split.
  - dims. exact HW1.
  - dims. exact HA2.
  - intros i j Hi Hj. rewrite Get_matmul by lia. rewrite HW2. reflexivity.
Qed.

(** The augmentation row of the weight gradient is zero after a backward
    step whose incoming error signal has a zero augmentation row in the
    columns of the view. *)
Lemma bp_linearity_augmentation_row `{!Ideal O} (L : Layer) (P b j : nat) :
  configured L P ->
  (forall k, k < b -> Get (m_prev_error_signal L) (NumNeurons L) k = d_zero) ->
  j < P + 1 ->
  Get (m_weights_gradient (bp_linearity (fp_set_std_matrix_view L b)))
      (NumNeurons L) j = d_zero.
Proof.
  intros C Hz Hj. rewrite (bp_linearity_gradient_entry b C) by lia.
  rewrite sum_upto_zeros.
  - apply mul_0_r.
  - apply add_0_l.
  - intros k Hk. rewrite Hz by exact Hk. apply mul_0_l.
Qed.

End LinearityFacts.

(** ** Setup *)

Section SetupFacts.
Context {O : DataOps}.

Lemma store_set_buffer_same {Opt : OptimizerOps O} (L : Layer) b M :
  store (set_buffer L b M) b = M.
Proof. simpl. destruct (buffer_eq_dec b b); [reflexivity | contradiction]. Qed.


Lemma in_procs g p : In p (procs g) <-> in_grid g p.
Proof.
  unfold procs, in_grid. rewrite in_flat_map. split.
  - intros (r & Hr & Hp). apply in_map_iff in Hp. destruct Hp as (c & Ec & Hc).
    apply in_seq in Hr. apply in_seq in Hc. subst p. simpl. lia.
  - intros [Hr Hc]. exists (p_row p). split.
    + apply in_seq. lia.
    + apply in_map_iff. exists (p_col p). split.
      * destruct p; reflexivity.
      * apply in_seq. lia.
Qed.

Lemma owner_in_grid g i j : valid_grid g -> in_grid g (owner g i j).
Proof.
  intros [Hh Hw]. unfold in_grid, owner. simpl.
  split; apply Nat.mod_upper_bound; lia.
Qed.

Lemma IsLocal_owner g p i j :
  IsLocal g p MC MR i j = true <-> p = owner g i j.
Proof.
  unfold IsLocal, IsLocalRow, IsLocalCol, owner. simpl.
  rewrite andb_true_iff, !Nat.eqb_eq. destruct p as [r c]. simpl. split.
  - intros [-> ->]. reflexivity.
  - intros E. injection E as -> ->. split; reflexivity.
Qed.

(** On the process that stores the last entry of a matrix, that entry is the
    last local one. *)
Lemma last_local_entry g p (W : Mat) N P :
  valid_grid g -> Height W = N + 1 -> Width W = P + 1 ->
  IsLocal g p MC MR N P = true ->
  GlobalRow g p MC (LocalHeight g p MC W - 1) = N
  /\ GlobalCol g p MR (LocalWidth g p MR W - 1) = P.
Proof.
  intros [Hh Hw] EH EW Hloc. apply IsLocal_owner in Hloc. subst p.
  unfold GlobalRow, GlobalCol, LocalHeight, LocalWidth, owner. simpl.
  rewrite EH, EW, !Nat.add_1_r. split.
  - apply Length_owned; [lia | apply Nat.mod_upper_bound; lia | reflexivity].
  - apply Length_owned; [lia | apply Nat.mod_upper_bound; lia | reflexivity].
Qed.

Lemma set_bias_entry_spec g p (W : Mat) N P :
  valid_grid g -> Height W = N + 1 -> Width W = P + 1 ->
  set_bias_entry g N P p W
  = if IsLocal g p MC MR N P then Set_ W N P d_one else W.
Proof.
  intros Hg EH EW. unfold set_bias_entry.
  destruct (IsLocal g p MC MR N P) eqn:E; [| reflexivity].
  unfold SetLocal.
  destruct (@last_local_entry g p W N P Hg EH EW E) as [-> ->]. reflexivity.
Qed.

Lemma Set__idem (W : Mat) i j v : Set_ (Set_ W i j v) i j v = Set_ W i j v.
Proof.
  unfold Set_. rewrite Height_mk_mat, Width_mk_mat.
  apply mk_mat_ext. intros a b Ha Hb.
  destruct ((a =? i) && (b =? j)) eqn:E; [reflexivity |].
  rewrite Get_mk_mat by assumption. rewrite E. reflexivity.
Qed.

Lemma spmd_set_bias_entry g (W : Mat) N P :
  valid_grid g -> Height W = N + 1 -> Width W = P + 1 ->
  spmd g (set_bias_entry g N P) W = Set_ W N P d_one.
Proof.
  intros Hg EH EW. unfold spmd.
  assert (Hown : In (owner g N P) (procs g))
    by (apply in_procs, owner_in_grid, Hg).
  assert (Gen : forall l M,
             (M = W \/ M = Set_ W N P d_one) ->
             let M' := fold_left (fun M p => set_bias_entry g N P p M) l M in
             (M' = W \/ M' = Set_ W N P d_one)
             /\ (In (owner g N P) l \/ M = Set_ W N P d_one -> M' = Set_ W N P d_one)).
  { induction l as [| p l IH]; intros M HM; simpl.
    - split; [exact HM |]. intros [[] | E]; exact E.
    - assert (HM' : set_bias_entry g N P p M = W
                    \/ set_bias_entry g N P p M = Set_ W N P d_one).
      { destruct HM as [-> | ->].
        - rewrite set_bias_entry_spec by assumption.
          destruct (IsLocal g p MC MR N P); [right | left]; reflexivity.
        - rewrite set_bias_entry_spec by assumption.
          destruct (IsLocal g p MC MR N P); [| right; reflexivity].
          right. apply Set__idem. }
      destruct (IH _ HM') as [IH1 IH2]. split; [exact IH1 |].
      intros Hc. apply IH2.
      destruct Hc as [[Ep | Hin] | EM].
      + right. subst p. destruct HM as [-> | ->].
        * rewrite set_bias_entry_spec by assumption.
          replace (IsLocal g (owner g N P) MC MR N P) with true
            by (symmetry; apply IsLocal_owner; reflexivity).
          reflexivity.
        * rewrite set_bias_entry_spec by assumption.
          replace (IsLocal g (owner g N P) MC MR N P) with true
            by (symmetry; apply IsLocal_owner; reflexivity).
          apply Set__idem.
      + left. exact Hin.
      + right. subst M. rewrite set_bias_entry_spec by assumption.
        destruct (IsLocal g p MC MR N P); [apply Set__idem | reflexivity]. }
  destruct (Gen (procs g) W (or_introl eq_refl)) as [_ G]. apply G. left. exact Hown.
Qed.


Context {Opt : OptimizerOps O} {Rnd : RandomOps O} {Base : BaseLayer Opt}
        {Mpi : MpiOps O}.
Import weight_initialization.

(** The members the blocks of [setup] read are left as they are by the blocks
    before them. *)
Lemma setup_optimizer_frame (L : Layer) P :
  NumNeurons (setup_optimizer L P) = NumNeurons L
  /\ comm (setup_optimizer L P) = comm L
  /\ m_weight_initialization (setup_optimizer L P) = m_weight_initialization L
  /\ m_mini_batch_size (setup_optimizer L P) = m_mini_batch_size L.
Proof. unfold setup_optimizer. destruct (optimizer L); repeat split. Qed.

Lemma init_weights_frame (L : Layer) P :
  NumNeurons (init_weights L P) = NumNeurons L
  /\ m_mini_batch_size (init_weights L P) = m_mini_batch_size L.
Proof.
  unfold init_weights. destruct (m_weight_initialization L); repeat split.
Qed.

(** The weight-bias matrix [init_weights] leaves: the block of the first
    [NumNeurons] rows and [P] columns is overwritten, by draws or by zeros. *)
Lemma init_weights_entry (L : Layer) P i j :
  i < Height (m_weights L) -> j < Width (m_weights L) ->
  Get (m_weights (init_weights L P)) i j
  = if (i <? NumNeurons L) && (j <? P)
    then match m_weight_initialization L with
         | zero | unlisted _ => d_zero
         | uniform => uniform_draw d_zero d_one i j
         | normal => gaussian_draw d_zero d_one i j
         | glorot_normal =>
             gaussian_draw d_zero (d_sqrt (d_of_nat 2 / d_of_nat (P + NumNeurons L))%D) i j
         | glorot_uniform =>
             uniform_draw d_zero
               (d_sqrt (d_of_nat 3 * (d_of_nat 2 / d_of_nat (P + NumNeurons L)))%D) i j
         | he_normal => gaussian_draw d_zero (d_sqrt (d_one / d_of_nat P)%D) i j
         | he_uniform =>
             uniform_draw d_zero (d_sqrt (d_of_nat 3 * (d_one / d_of_nat P))%D) i j
         end
    else Get (m_weights L) i j.
Proof.
  intros Hi Hj. unfold init_weights, uniform_fill, gaussian_fill, assign, deref, m_weights.
  cbn [v_of v_rows v_cols].
  destruct (m_weight_initialization L); cbv zeta;
    rewrite store_set_buffer_same, Get_view_write by assumption;
    rewrite !in_IR_0; cbn [ir_beg]; rewrite !Nat.sub_0_r;
    (destruct ((i <? NumNeurons L) && (j <? P)) eqn:E; [| reflexivity]);
    apply andb_true_iff in E; destruct E as [E1 E2];
    apply Nat.ltb_lt in E1, E2;
    unfold Zero, Zeros, view_read, ir_len; cbn [ir_beg ir_end];
    rewrite ?Height_mk_mat, ?Width_mk_mat, ?Nat.sub_0_r;
    rewrite Get_mk_mat by lia; reflexivity.
Qed.

Lemma setup_weights_unfold (L : Layer) P :
  m_weights (setup L P)
  = m_weights (init_weights
                 (init_weight_bias_matrix (setup_optimizer (Layer_setup L P) P) P) P).
Proof. reflexivity. Qed.

Lemma init_weight_bias_matrix_weights (L : Layer) P :
  valid_grid (comm L) ->
  m_weights (init_weight_bias_matrix L P)
  = Set_ (Zeros (NumNeurons L + 1) (P + 1)) (NumNeurons L) P d_one.
Proof.
  intros Hg. unfold init_weight_bias_matrix, m_weights. cbv zeta.
  rewrite store_set_buffer_same.
  cbn [comm NumNeurons set_buffer].
  rewrite store_set_buffer_same.
  apply spmd_set_bias_entry; [exact Hg | reflexivity | reflexivity].
Qed.

(** The weight-bias matrix after [setup], entry by entry. *)
Lemma setup_weights_entry (L : Layer) P i j :
  let L0 := Layer_setup L P in
  let N := NumNeurons L0 in
  valid_grid (comm L0) -> i < N + 1 -> j < P + 1 ->
  Get (m_weights (setup L P)) i j
  = if (i <? N) && (j <? P)
    then match m_weight_initialization L0 with
         | zero | unlisted _ => d_zero
         | uniform => uniform_draw d_zero d_one i j
         | normal => gaussian_draw d_zero d_one i j
         | glorot_normal =>
             gaussian_draw d_zero (d_sqrt (d_of_nat 2 / d_of_nat (P + N))%D) i j
         | glorot_uniform =>
             uniform_draw d_zero
               (d_sqrt (d_of_nat 3 * (d_of_nat 2 / d_of_nat (P + N)))%D) i j
         | he_normal => gaussian_draw d_zero (d_sqrt (d_one / d_of_nat P)%D) i j
         | he_uniform =>
             uniform_draw d_zero (d_sqrt (d_of_nat 3 * (d_one / d_of_nat P))%D) i j
         end
    else if (i =? N) && (j =? P) then d_one else d_zero.
Proof.
  intros L0 N Hg Hi Hj.
  destruct (setup_optimizer_frame L0 P) as (FN & Fc & Fi & _).
  fold L0 in FN, Fc, Fi.
  set (L1 := setup_optimizer L0 P) in *.
  assert (EW : m_weights (init_weight_bias_matrix L1 P)
               = Set_ (Zeros (N + 1) (P + 1)) N P d_one).
  { rewrite init_weight_bias_matrix_weights by (rewrite Fc; exact Hg).
    rewrite FN. reflexivity. }
  rewrite setup_weights_unfold. fold L0. fold L1.
  rewrite init_weights_entry by (rewrite EW; assumption).
  change (NumNeurons (init_weight_bias_matrix L1 P)) with (NumNeurons L1).
  change (m_weight_initialization (init_weight_bias_matrix L1 P))
    with (m_weight_initialization L1).
  rewrite FN, Fi. fold N. rewrite EW.
  rewrite Get_Set_ by assumption. rewrite Get_Zeros. reflexivity.
Qed.

Lemma setup_weights_extents (L : Layer) P :
  let L0 := Layer_setup L P in
  valid_grid (comm L0) ->
  wf (m_weights (setup L P))
  /\ has_extents (m_weights (setup L P)) (NumNeurons L0 + 1) (P + 1).
Proof.
  intros L0 Hg.
  destruct (setup_optimizer_frame L0 P) as (FN & Fc & Fi & _).
  fold L0 in FN, Fc, Fi.
  set (L1 := setup_optimizer L0 P) in *.
  assert (EW : m_weights (init_weight_bias_matrix L1 P)
               = Set_ (Zeros (NumNeurons L0 + 1) (P + 1)) (NumNeurons L0) P d_one).
  { rewrite init_weight_bias_matrix_weights by (rewrite Fc; exact Hg).
    rewrite FN. reflexivity. }
  rewrite setup_weights_unfold. fold L0. fold L1.
  set (L2 := init_weight_bias_matrix L1 P) in *.
  unfold init_weights, uniform_fill, gaussian_fill, assign, m_weights in *.
  cbv zeta. cbn [v_of v_rows v_cols].
  destruct (m_weight_initialization L2);
    rewrite store_set_buffer_same;
    (split; [apply wf_view_write |]);
    unfold has_extents, view_write; rewrite Height_mk_mat, Width_mk_mat, EW;
    split; reflexivity.
Qed.


Lemma finish_configured (L : Layer) P :
  has_extents (m_weights L) (NumNeurons L + 1) (P + 1) ->
  configured (create_weights_views (init_other_matrices L P)) P.
Proof.
  intros [HH HW].
  constructor; try (split; reflexivity).
  - split; [exact HH | exact HW].
  - change (views (create_weights_views (init_other_matrices L P)) weights_v)
      with (Build_view weights (Build_IR 0 (Height (m_weights L)))
                       (Build_IR 0 (Width (m_weights L)))).
    rewrite HH, HW. reflexivity.
Qed.

(** [setup] establishes the extents and the bindings of [configured]. *)
Lemma setup_configured (L : Layer) P :
  let L0 := Layer_setup L P in
  valid_grid (comm L0) ->
  configured (setup L P) P
  /\ NumNeurons (setup L P) = NumNeurons L0
  /\ m_mini_batch_size (setup L P) = m_mini_batch_size L0.
Proof.
  intros L0 Hg.
  destruct (setup_optimizer_frame L0 P) as (FN & _ & _ & Fm).
  destruct (init_weights_frame
              (init_weight_bias_matrix (setup_optimizer L0 P) P) P) as (GN & Gm).
  assert (EN : NumNeurons (setup L P) = NumNeurons L0).
  { change (NumNeurons (setup L P))
      with (NumNeurons (init_weights
                          (init_weight_bias_matrix (setup_optimizer L0 P) P) P)).
    rewrite GN. exact FN. }
  assert (Em : m_mini_batch_size (setup L P) = m_mini_batch_size L0).
  { change (m_mini_batch_size (setup L P))
      with (m_mini_batch_size (init_weights
                          (init_weight_bias_matrix (setup_optimizer L0 P) P) P)).
    rewrite Gm. exact Fm. }
  split; [| split; assumption].
  apply finish_configured.
  destruct (@setup_weights_extents L P Hg) as [_ [HH HW]].
  fold L0 in HH, HW.
  rewrite setup_weights_unfold in HH, HW. split.
  - rewrite HH. fold L0. rewrite GN.
    change (NumNeurons (init_weight_bias_matrix (setup_optimizer L0 P) P))
      with (NumNeurons (setup_optimizer L0 P)).
    rewrite FN. reflexivity.
  - exact HW.
Qed.


(** [setup] leaves the weight gradient zero. *)
Lemma setup_gradient_zero (L : Layer) P :
  m_weights_gradient (setup L P)
  = Zeros (NumNeurons (Layer_setup L P) + 1) (P + 1).
Proof.
  destruct (setup_optimizer_frame (Layer_setup L P) P) as (FN & _).
  destruct (init_weights_frame
              (init_weight_bias_matrix (setup_optimizer (Layer_setup L P) P) P) P)
    as (GN & _).
  change (m_weights_gradient (setup L P))
    with (Zeros (NumNeurons
                   (init_weights
                      (init_weight_bias_matrix
                         (setup_optimizer (Layer_setup L P) P) P) P) + 1) (P + 1)).
  rewrite GN.
  change (NumNeurons (init_weight_bias_matrix (setup_optimizer (Layer_setup L P) P) P))
    with (NumNeurons (setup_optimizer (Layer_setup L P) P)).
  rewrite FN. reflexivity.
Qed.

(** C4.  After [setup] under the [zero] policy the weight-bias matrix has
    [N+1] rows and [P+1] columns, its row [N] is [0, ..., 0, 1] and every
    other entry is zero.  The entry [(N, P)] is stored by the one process of
    the grid that owns it: on that process the last local entry is the entry
    [(N, P)], and every other process leaves the matrix as it is. *)
Theorem setup_zero_policy (L : Layer) (P : nat) :
  let L0 := Layer_setup L P in
  let N := NumNeurons L0 in
  let g := comm L0 in
  valid_grid g ->
  m_weight_initialization L0 = zero ->
  let W := m_weights (setup L P) in
  has_extents W (N + 1) (P + 1)
  /\ W = mk_mat (N + 1) (P + 1)
              (fun i j => if (i =? N) && (j =? P) then d_one else d_zero)
  /\ nth N (rows W) [] = repeat d_zero P ++ [d_one]
  /\ In (owner g N P) (procs g)
  /\ (forall p W0,
        has_extents W0 (N + 1) (P + 1) ->
        (IsLocal g p MC MR N P = true <-> p = owner g N P)
        /\ set_bias_entry g N P p W0
           = if IsLocal g p MC MR N P then Set_ W0 N P d_one else W0).
Proof.
  intros L0 N g Hg Hz W.
  destruct (@setup_weights_extents L P Hg) as [WF [HH HW]].
  fold L0 N W in WF, HH, HW.
  assert (EW : W = mk_mat (N + 1) (P + 1)
                     (fun i j => if (i =? N) && (j =? P) then d_one else d_zero)).
  { apply mat_ext; [exact WF | apply wf_mk_mat | exact HH | exact HW |].
    rewrite HH, HW. intros i j Hi Hj. unfold W.
    rewrite setup_weights_entry by assumption.
    fold L0 N. rewrite Hz. rewrite Get_mk_mat by assumption.
    destruct ((i <? N) && (j <? P)) eqn:E; [| reflexivity].
    apply andb_true_iff in E. destruct E as [E1 _]. apply Nat.ltb_lt in E1.
    replace (i =? N) with false by (symmetry; apply Nat.eqb_neq; lia).
    reflexivity. }
  split; [split; assumption |].
  split; [exact EW |].
  split.
  { rewrite EW. rewrite nth_rows_mk_mat by lia.
    rewrite Nat.add_1_r, seq_S, map_app. cbn [map Nat.add].
    rewrite !Nat.eqb_refl. cbn [andb]. f_equal.
    transitivity (repeat d_zero (length (seq 0 P)));
      [| rewrite length_seq; reflexivity].
    apply map_const. intros j Hj. apply in_seq in Hj.
    cbv beta.
    replace (j =? P) with false by (symmetry; apply Nat.eqb_neq; lia).
    rewrite ?andb_false_r. reflexivity. }
  split; [apply in_procs, owner_in_grid, Hg |].
  intros p W0 [H0 W0'].
  split; [apply IsLocal_owner | apply set_bias_entry_spec; assumption].
Qed.

(** C5.  Whatever the initialization policy, [setup] stores the drawn
    values in the block of the first [N] rows and [P] columns and nowhere
    else: the bias column [P] stays zero and the last row stays
    [0, ..., 0, 1].  The block holds the draws of the policy's distribution
    with the parameters of the specification's table, and a policy value
    that is none of the listed ones leaves the block zero, as [zero] does. *)
Theorem setup_policy_block `{!Ideal O} (L : Layer) (P : nat) :
  let L0 := Layer_setup L P in
  let N := NumNeurons L0 in
  valid_grid (comm L0) ->
  let W := m_weights (setup L P) in
  (forall i j, i < N -> j < P ->
     Get W i j = spec_policy_draws (m_weight_initialization L0) N P i j)
  /\ (forall i, i < N -> Get W i P = d_zero)
  /\ (forall j, j < P -> Get W N j = d_zero)
  /\ Get W N P = d_one
  /\ (forall raw, m_weight_initialization L0 = unlisted raw ->
      forall i j, i < N -> j < P -> Get W i j = d_zero).
Proof.
  intros L0 N Hg W. unfold W.
  assert (Block : forall i j, i < N -> j < P ->
            Get (m_weights (setup L P)) i j
            = spec_policy_draws (m_weight_initialization L0) N P i j).
  { intros i j Hi Hj.
    rewrite setup_weights_entry by (fold L0 N; (exact Hg || lia)).
    fold L0 N.
    replace (i <? N) with true by (symmetry; apply Nat.ltb_lt; lia).
    replace (j <? P) with true by (symmetry; apply Nat.ltb_lt; lia).
    cbn [andb]. unfold spec_policy_draws.
    destruct (m_weight_initialization L0); try reflexivity.
    rewrite mul_div_one. reflexivity. }
  split; [exact Block |].
  split.
  { intros i Hi. rewrite setup_weights_entry by (fold L0 N; (exact Hg || lia)).
    fold L0 N. rewrite Nat.ltb_irrefl, andb_false_r.
    replace (i =? N) with false by (symmetry; apply Nat.eqb_neq; lia).
    reflexivity. }
  split.
  { intros j Hj. rewrite setup_weights_entry by (fold L0 N; (exact Hg || lia)).
    fold L0 N. rewrite Nat.ltb_irrefl. cbn [andb].
    replace (j =? P) with false by (symmetry; apply Nat.eqb_neq; lia).
    rewrite andb_false_r. reflexivity. }
  split.
  { rewrite setup_weights_entry by (fold L0 N; (exact Hg || lia)).
    fold L0 N. rewrite Nat.ltb_irrefl, !Nat.eqb_refl. reflexivity. }
  intros raw Hraw i j Hi Hj. rewrite Block by assumption.
  rewrite Hraw. reflexivity.
Qed.

End SetupFacts.

(** ** The cost *)

Section CostFacts.
Context {O : DataOps} {Mpi : MpiOps O}.

Lemma Length__single n : Length_ n 0 1 = n.
Proof.
  unfold Length_. destruct n as [| n]; [reflexivity |].
  cbn [Nat.ltb Nat.leb]. rewrite Nat.div_1_r. lia.
Qed.

(** On the grid of one process the local loop adds up all the column
    norms. *)
Lemma local_total_error_sum g p (norms : Mat) :
  local_total_error g p norms
  = sum_upto (LocalHeight g p MR norms) (fun r => GetLocal g p MR STAR norms r 0).
Proof. reflexivity. Qed.

Lemma local_total_error_single (norms : Mat) :
  local_total_error grid_1x1 proc_0 norms
  = sum_upto (Height norms) (fun r => Get norms r 0).
Proof.
  rewrite local_total_error_sum.
  unfold LocalHeight, GetLocal, GlobalRow, GlobalCol.
  cbn [shift stride grid_1x1 proc_0 grid_width p_col].
  rewrite Length__single.
  apply sum_upto_ext. intros r Hr. rewrite Nat.mul_1_r. reflexivity.
Qed.

(** A sum with one term that is not zero. *)
Lemma sum_upto_single `{!Ideal O} n f c :
  c < n -> (forall k, k < n -> k <> c -> f k = d_zero) -> sum_upto n f = f c.
Proof.
  intros Hc Hz. unfold sum_upto.
  assert (Gen : forall l acc,
             NoDup l -> (forall k, In k l -> k < n) ->
             fold_left (fun acc k => (acc + f k)%D) l acc
             = if existsb (Nat.eqb c) l then (acc + f c)%D else acc
               ).
  { induction l as [| a l IH]; intros acc ND Hl; cbn [fold_left existsb].
    - reflexivity.
    - inversion ND as [| ? ? Hnin ND']; subst.
      rewrite IH by (try assumption; intros k Hk; apply Hl; right; exact Hk).
      destruct (Nat.eqb_spec c a) as [-> | Hne]; cbn [orb].
      + replace (existsb (Nat.eqb a) l) with false; [reflexivity |].
        symmetry. apply not_true_is_false. intros E.
        apply existsb_exists in E. destruct E as (x & Hx & Ex).
        apply Nat.eqb_eq in Ex. subst x. contradiction.
      + rewrite (Hz a) by (try (apply Hl; left; reflexivity); congruence).
        rewrite add_0_r. reflexivity. }
  rewrite Gen by (try apply seq_NoDup; intros k Hk; apply in_seq in Hk; lia).
  replace (existsb (Nat.eqb c) (seq 0 n)) with true.
  - apply add_0_l.
  - symmetry. apply existsb_exists. exists c. split.
    + apply in_seq. lia.
    + apply Nat.eqb_refl.
Qed.

(** The two-norm of a zero vector. *)
Lemma two_norm_zeros `{!Ideal O} (v : list DataType) :
  Forall (fun x => x = d_zero) v -> two_norm v = d_zero.
Proof.
  intros Hv. unfold two_norm.
  assert (E : fold_left (fun acc x : DataType => (acc + x * x)%D) v d_zero = d_zero).
  { induction Hv as [| x l Hx _ IH]; cbn [fold_left].
    - reflexivity.
    - rewrite Hx, mul_0_l, add_0_l. exact IH. }
  rewrite E. apply sqrt_0.
Qed.

Lemma column_zeros (A : Mat) k :
  (forall i, i < Height A -> Get A i k = d_zero) ->
  Forall (fun x => x = d_zero) (column A k).
Proof.
  intros Hz. unfold column. apply Forall_forall. intros x Hx.
  apply in_map_iff in Hx. destruct Hx as (i & <- & Hi).
  apply in_seq in Hi. apply Hz. lia.
Qed.

Lemma Get_ColumnTwoNorms (A : Mat) k :
  k < Width A -> Get (ColumnTwoNorms A) k 0 = two_norm (column A k).
Proof.
  intros Hk. unfold ColumnTwoNorms. rewrite Get_mk_mat by lia. reflexivity.
Qed.

(** C7 (as amended).  [computeCost] takes the two-norm of every column of
    [deltas], adds up on each process the norms it stores, passes the local
    total through one reduction over the communicator the norms are dealt
    over, and divides by the global height of the vector of norms, which is
    the number of columns of [deltas].  On the grid of one process the
    result is the sum of the column norms over the number of columns; on a
    zero matrix with at least one column it is zero; with one column of norm
    [v] and the others zero it is [v] over the number of columns. *)
Theorem computeCost_mean_over_columns `{!Ideal O} `{!MpiLaws Mpi}
        (g : Grid) (me : Proc) (deltas : Mat) :
  let norms := ColumnTwoNorms deltas in
  computeCost g me deltas
  = (AllReduce (local_total_error g me norms)
               (map (fun p => local_total_error g p norms) (DistComm g me MR))
     / d_of_nat (Width deltas))%D
  /\ computeCost grid_1x1 proc_0 deltas
     = (sum_upto (Width deltas) (fun k => two_norm (column deltas k))
        / d_of_nat (Width deltas))%D
  /\ ((forall i k, Get deltas i k = d_zero) -> Width deltas <> 0 ->
      computeCost g me deltas = d_zero)
  /\ (forall c v,
        c < Width deltas ->
        two_norm (column deltas c) = v ->
        (forall i k, k <> c -> Get deltas i k = d_zero) ->
        computeCost grid_1x1 proc_0 deltas = (v / d_of_nat (Width deltas))%D).
Proof.
  intros norms.
  assert (One : computeCost grid_1x1 proc_0 deltas
     = (sum_upto (Width deltas) (fun k => two_norm (column deltas k))
        / d_of_nat (Width deltas))%D).
  { unfold computeCost. cbn [DistComm grid_1x1 proc_0 grid_width p_row seq map].
    rewrite AllReduce_single. rewrite local_total_error_single.
    f_equal. apply sum_upto_ext. intros k Hk. apply Get_ColumnTwoNorms. exact Hk. }
  split; [reflexivity |].
  split; [exact One |].
  split.
  - intros Hz Hw. unfold computeCost. fold norms.
    assert (Z : forall p, local_total_error g p norms = d_zero).
    { intros p. rewrite local_total_error_sum. apply sum_upto_zeros; [apply add_0_l |].
      intros r Hr. unfold GetLocal, norms, ColumnTwoNorms, GlobalCol.
      cbn [shift stride]. rewrite Nat.mul_1_r, Nat.add_0_l.
      destruct (Nat.lt_ge_cases (GlobalRow g p MR r) (Width deltas)) as [Hin | Hout].
      - rewrite Get_mk_mat by lia. apply two_norm_zeros, column_zeros.
        intros i _. apply Hz.
      - apply Get_mk_mat_outside. left. exact Hout. }
    rewrite Z. rewrite AllReduce_zeros.
    + apply div_0_l. exact Hw.
    + apply Forall_forall. intros x Hx. apply in_map_iff in Hx.
      destruct Hx as (p & <- & _). apply Z.
  - intros c v Hc Hv Hz. rewrite One. f_equal. rewrite <- Hv.
    apply (sum_upto_single (fun k => two_norm (column deltas k)) Hc).
    intros k Hk Hne. apply two_norm_zeros, column_zeros.
    intros i _. apply Hz. exact Hne.
Qed.

End CostFacts.

(** ** The update *)

Section UpdateFacts.
Context {O : DataOps} {Opt : OptimizerOps O}.

(** C8.  [FullyConnectedLayer::update] calls the optimizer, on the weight
    gradient and the weights, when the execution mode is training, and the
    weights become what the optimizer makes of them; in every other mode it
    makes no call and leaves the layer as it is.  In both cases it returns
    [true].  [Layer::update] returns [false] and does nothing. *)
Theorem update_only_when_training (L : Layer) :
  (forall o,
     m_execution_mode L = execution_mode.training ->
     optimizer L = Some o ->
     let r := update_weight_bias_matrix o (m_weights_gradient L) (m_weights L) in
     update L
     = Some (true,
             set_optimizer (set_buffer L weights (snd r)) (Some (fst r)),
             [update_weight_bias_matrix_call (m_weights_gradient L) (m_weights L)]))
  /\ (m_execution_mode L <> execution_mode.training ->
      update L = Some (true, L, []))
  /\ Layer_update L = (false, L, []).
Proof.
  split; [| split].
  - intros o Hm Ho r. unfold update. rewrite Hm, Ho. cbn [execution_mode.is_training].
    subst r. destruct (update_weight_bias_matrix o _ _) as [o' WB]. reflexivity.
  - intros Hm. unfold update.
    destruct (m_execution_mode L); [contradiction Hm; reflexivity | reflexivity].
  - reflexivity.
Qed.

(** In training mode [update] dereferences [optimizer] without the test for
    a null pointer that [setup] makes. *)
Lemma update_null_optimizer (L : Layer) :
  m_execution_mode L = execution_mode.training ->
  optimizer L = None ->
  update L = None.
Proof. intros Hm Ho. unfold update. rewrite Hm, Ho. reflexivity. Qed.

End UpdateFacts.

(** ** The gradient checker *)

Section CheckerFacts.
Context {O : DataOps} {Opt : OptimizerOps O}.

(** The guarded local store of the checker, in global indices: the process
    that stores entry [(r, c)] updates it, every other process does
    nothing. *)
Lemma update_if_local_spec g me (M : Mat) r c f :
  valid_grid g ->
  update_if_local g me M r c f
  = if IsLocal g me MC MR r c then Set_ M r c (f (Get M r c)) else M.
Proof.
  intros [Hh Hw]. unfold update_if_local.
  destruct (IsLocal g me MC MR r c) eqn:E; [| reflexivity].
  unfold IsLocal, IsLocalRow, IsLocalCol in E.
  apply andb_true_iff in E. destruct E as [Er Ec].
  apply Nat.eqb_eq in Er, Ec. cbn [stride shift] in Er, Ec.
  unfold SetLocal, GetLocal, GlobalRow, GlobalCol, LocalRow, LocalCol.
  cbn [stride shift].
  rewrite (@Length_LocalRow r (p_row me) (grid_height g))
    by (try assumption; rewrite <- Er; apply Nat.mod_upper_bound; lia).
  rewrite (@Length_LocalRow c (p_col me) (grid_width g))
    by (try assumption; rewrite <- Ec; apply Nat.mod_upper_bound; lia).
  reflexivity.
Qed.

Lemma checker_step_same_outputs g me (L1 L2 : Layer) eps1 eps2 s t e :
  m_activations L1 = m_activations L2 ->
  same_outputs s t ->
  same_outputs (checker_step g me L1 eps1 s e) (checker_step g me L2 eps2 t e).
Proof.
  intros EA (A1 & A2 & Gd & Gs & Pr). destruct e as [row col].
  unfold same_outputs, checker_step.
  cbn [Acts_E1 Acts_E2 grad_diff grad_sum printed].
  rewrite EA, A1, A2, Gd, Gs, Pr. repeat split.
Qed.

Lemma checker_fold_same_outputs g me (L1 L2 : Layer) eps1 eps2 l :
  m_activations L1 = m_activations L2 ->
  forall s t,
    same_outputs s t ->
    same_outputs (fold_left (checker_step g me L1 eps1) l s)
                 (fold_left (checker_step g me L2 eps2) l t).
Proof.
  intros EA. induction l as [| e l IH]; intros s t R; cbn [fold_left].
  - exact R.
  - apply IH. apply checker_step_same_outputs; assumption.
Qed.

Lemma checker_init_same_outputs g me (L1 L2 : Layer) eps1 eps2 :
  m_activations L1 = m_activations L2 ->
  same_outputs (checker_init g me L1 eps1) (checker_init g me L2 eps2).
Proof.
  intros EA. unfold same_outputs, checker_init.
  cbn [Acts_E1 Acts_E2 grad_diff grad_sum printed]. rewrite EA. repeat split.
Qed.

(** What every entry of the sweep leaves as it is, and what it does to the
    scratch activations. *)
Lemma checker_fold_invariant g me (L : Layer) eps l :
  forall s,
    let s' := fold_left (checker_step g me L eps) l s in
    grad_diff s' = grad_diff s /\ grad_sum s' = grad_sum s
    /\ Acts_E1 s' = Nat.iter (length l) (Axpy (- d_one)%D (m_activations L)) (Acts_E1 s)
    /\ Acts_E2 s' = Nat.iter (length l) (Axpy (- d_one)%D (m_activations L)) (Acts_E2 s).
Proof.
  induction l as [| e l IH]; intros s; cbn [fold_left length].
  - repeat split.
  - destruct (IH (checker_step g me L eps s e)) as (Gd & Gs & A1 & A2).
    cbv zeta. rewrite Gd, Gs, A1, A2. destruct e as [row col].
    unfold checker_step. cbn [Acts_E1 Acts_E2 grad_diff grad_sum].
    rewrite <- !Nat.iter_succ_r. repeat split.
Qed.

Lemma length_sweep h w : length (sweep h w) = h * w.
Proof.
  unfold sweep. induction h as [| h IH].
  - reflexivity.
  - rewrite seq_S, flat_map_app, length_app, IH. cbn [flat_map Nat.add].
    rewrite app_nil_r, length_map, length_seq. lia.
Qed.

(** C10 (as amended).  [checkGradient] never assigns [grad_diff] and
    [grad_sum]: they are zero after every entry of the sweep and the value
    returned is the square root of zero over zero.  No forward pass runs on
    the perturbed copies of the weights: after [k] entries each scratch
    matrix of activations is the zero matrix from which the activations have
    been subtracted [k] times, so the value returned and the diagnostics do
    not depend on the perturbation, nor on the weights. *)
Theorem checkGradient_degenerate (g : Grid) (me : Proc) (L PrevLayer : Layer)
        (Epsilon : DataType) :
  let acts := m_activations L in
  let entries := Height (m_weights L) * Width (m_weights L) in
  fst (checkGradient g me L PrevLayer Epsilon) = d_sqrt (d_zero / d_zero)%D
  /\ (forall k, k <= entries ->
        let st := checker_after g me L Epsilon k in
        grad_diff st = d_zero /\ grad_sum st = d_zero
        /\ Acts_E1 st = Nat.iter k (Axpy (- d_one)%D acts)
                                 (Zeros (Height acts) (Width acts))
        /\ Acts_E2 st = Nat.iter k (Axpy (- d_one)%D acts)
                                 (Zeros (Height acts) (Width acts)))
  /\ (forall (L2 PrevLayer2 : Layer) (Epsilon2 : DataType),
        m_activations L2 = acts ->
        Height (m_weights L2) = Height (m_weights L) ->
        Width (m_weights L2) = Width (m_weights L) ->
        checkGradient g me L2 PrevLayer2 Epsilon2
        = checkGradient g me L PrevLayer Epsilon).
Proof.
  intros acts entries. split; [| split].
  - unfold checkGradient. cbn [fst].
    destruct (checker_fold_invariant g me L Epsilon
                (sweep (Height (m_weights L)) (Width (m_weights L)))
                (checker_init g me L Epsilon)) as (Gd & Gs & _).
    cbv zeta in Gd, Gs. rewrite Gd, Gs. reflexivity.
  - intros k Hk st. subst st. unfold checker_after.
    destruct (checker_fold_invariant g me L Epsilon
                (firstn k (sweep (Height (m_weights L)) (Width (m_weights L))))
                (checker_init g me L Epsilon)) as (Gd & Gs & A1 & A2).
    cbv zeta in Gd, Gs, A1, A2. rewrite Gd, Gs, A1, A2.
    rewrite length_firstn, length_sweep. fold entries.
    rewrite (Nat.min_l k entries Hk). repeat split.
  - intros L2 PrevLayer2 Epsilon2 EA EH EW. unfold checkGradient.
    rewrite EH, EW.
    destruct (checker_fold_same_outputs g me L2 L Epsilon2 Epsilon
                (sweep (Height (m_weights L)) (Width (m_weights L))) EA
                (checker_init_same_outputs g me L2 L Epsilon2 Epsilon EA))
      as (_ & _ & Gd & Gs & Pr).
    rewrite Gd, Gs, Pr. reflexivity.
Qed.

End CheckerFacts.

(** ** The statements on concrete layers *)

Section Examples.

#[local] Existing Instance sgd.
#[local] Existing Instance fixed_draws.
#[local] Existing Instance plain_base.
#[local] Existing Instance sum_reduce.

Lemma valid_grid_1x1 : valid_grid grid_1x1.
Proof. split; vm_compute; lia. Qed.

Lemma sample_layer_configured a0 a1 e0 r0 e1 r1 :
  configured (sample_layer a0 a1 e0 r0 e1 r1) 1.
Proof. constructor; try (split; reflexivity); reflexivity. Qed.

Lemma sample_layer_first_column a0 a1 a1' e0 r0 e1 e1' r1 r1' :
  (forall i k, k < 1 ->
     Get (m_prev_activations (sample_layer a0 a1 e0 r0 e1 r1)) i k
     = Get (m_prev_activations (sample_layer a0 a1' e0 r0 e1' r1')) i k)
  /\ (forall i k, k < 1 ->
        Get (m_prev_error_signal (sample_layer a0 a1 e0 r0 e1 r1)) i k
        = Get (m_prev_error_signal (sample_layer a0 a1' e0 r0 e1' r1')) i k).
Proof.
  split; intros i k Hk; assert (k = 0) by lia; subst k;
    destruct i as [| [| [| i]]]; vm_compute; reflexivity.
Qed.

(** The backward step of the sample layer, of width one at effective
    mini-batch size two. *)
Lemma bp_linearity_computes_witness :
  let L := sample_layer 1 5 1 0 7 0 in
  configured L 1 /\ 1 <= m_mini_batch_size L
  /\ m_weights_gradient (bp_linearity (fp_set_std_matrix_view L 1))
     = scale (d_one / d_of_nat 2)%D
             (matmul (first_columns 1 (m_prev_error_signal L))
                     (transpose (first_columns 1 (m_prev_activations L)))).
Proof.
  cbv zeta. split; [apply sample_layer_configured |].
  split; [vm_compute; lia |].
  apply (bp_linearity_computes (L := sample_layer 1 5 1 0 7 0) (P := 1) (b := 1)
                               (sample_layer_configured 1 5 1 0 7 0)).
  vm_compute. lia.
Defined.

(** Two sample layers that differ in the second column only. *)
Lemma bp_linearity_ignores_tail_columns_witness :
  let L1 := sample_layer 1 5 1 0 7 0 in
  let L2 := sample_layer 1 9 1 0 4 6 in
  1 < m_mini_batch_size L1
  /\ m_weights_gradient (bp_linearity (fp_set_std_matrix_view L1 1))
     = m_weights_gradient (bp_linearity (fp_set_std_matrix_view L2 1)).
Proof.
  cbv zeta. split; [vm_compute; lia |].
  apply (bp_linearity_ignores_tail_columns
           (L1 := sample_layer 1 5 1 0 7 0) (L2 := sample_layer 1 9 1 0 4 6)
           (P := 1) (b := 1)
           (sample_layer_configured 1 5 1 0 7 0)
           (sample_layer_configured 1 9 1 0 4 6)).
  - vm_compute. reflexivity.
  - vm_compute. reflexivity.
  - vm_compute. lia.
  - vm_compute. lia.
  - apply (sample_layer_first_column 1 5 9 1 0 7 4 0 6).
  - apply (sample_layer_first_column 1 5 9 1 0 7 4 0 6).
Defined.

(** The forward step of the sample layer with the views bound to one
    column. *)
Lemma fp_linearity_full_width_witness :
  let L := sample_layer 1 5 1 0 7 0 in
  let L' := fp_linearity (fp_set_std_matrix_view L 1) in
  configured L 1
  /\ m_preactivations L' = matmul (m_weights L) (m_prev_activations L)
  /\ has_extents (m_preactivations L') 2 2.
Proof.
  cbv zeta. split; [apply sample_layer_configured |].
  pose proof (fp_linearity_full_width (L := sample_layer 1 5 1 0 7 0) (P := 1) 1
                (sample_layer_configured 1 5 1 0 7 0)) as H.
  cbv zeta in H. destruct H as (H1 & H2 & _). split; [exact H1 | exact H2].
Defined.

(** [setup] of the fresh layer on the grid of one process. *)
Lemma setup_zero_policy_witness :
  valid_grid (comm fresh_layer)
  /\ m_weight_initialization fresh_layer = weight_initialization.zero
  /\ nth 1 (rows (m_weights (setup fresh_layer 1))) [] = [d_zero; d_one].
Proof.
  split; [exact valid_grid_1x1 |]. split; [reflexivity |].
  pose proof (setup_zero_policy (Rnd := fixed_draws) (Base := plain_base)
                fresh_layer 1 valid_grid_1x1 eq_refl) as H.
  cbv zeta in H. destruct H as (_ & _ & H & _). exact H.
Defined.

Lemma setup_policy_block_witness :
  valid_grid (comm fresh_layer)
  /\ (forall i, i < 1 -> Get (m_weights (setup fresh_layer 1)) i 1 = d_zero).
Proof.
  split; [exact valid_grid_1x1 |].
  pose proof (setup_policy_block (Rnd := fixed_draws) (Base := plain_base)
                fresh_layer 1 valid_grid_1x1) as H.
  cbv zeta in H. destruct H as (_ & H & _). exact H.
Defined.

(** The cost of the sample residual matrix on the grid of one process. *)
Lemma computeCost_mean_over_columns_witness :
  computeCost grid_1x1 proc_0 sample_deltas
  = (sum_upto (Width sample_deltas) (fun k => two_norm (column sample_deltas k))
     / d_of_nat (Width sample_deltas))%D.
Proof.
  pose proof (computeCost_mean_over_columns (Mpi := sum_reduce)
                grid_1x1 proc_0 sample_deltas) as H.
  cbv zeta in H. destruct H as (_ & H & _). exact H.
Defined.

(** The update of the sample layer, which is in training mode and has the
    gradient descent optimizer of rate 1/2. *)
Lemma update_only_when_training_witness :
  let L := sample_layer 1 5 1 0 7 0 in
  let lr : @Optimizer Qc_ops sgd := Q2Qc (1 # 2)%Q in
  m_execution_mode L = execution_mode.training
  /\ optimizer L = Some lr
  /\ update L
     = Some (true,
             set_optimizer
               (set_buffer L weights
                           (Axpy (- lr)%D (m_weights_gradient L) (m_weights L)))
               (Some lr),
             [update_weight_bias_matrix_call (m_weights_gradient L) (m_weights L)]).
Proof.
  cbv zeta. split; [reflexivity |]. split; [reflexivity |].
  apply (proj1 (update_only_when_training (sample_layer 1 5 1 0 7 0))
               (Q2Qc (1 # 2)%Q) eq_refl eq_refl).
Defined.

(** C6.  The code at a failing input: two layers stacked.  The incoming
    error signal of the upper layer has a zero augmentation row; the error
    signal its backward step hands down has the entry 3 in its last row,
    the bias weight times the error; the backward step of the lower layer
    then leaves 3/2 in both entries of the augmentation row of its weight
    gradient. *)
Theorem bp_linearity_augmentation_row_not_zero :
  let handed_down :=
    m_error_signal (bp_linearity (fp_set_std_matrix_view upper_layer 1)) in
  let dW :=
    m_weights_gradient (bp_linearity (fp_set_std_matrix_view lower_layer 1)) in
  Get (m_prev_error_signal upper_layer) (NumNeurons upper_layer) 0 = q 0
  /\ Get handed_down 1 0 = q 3
  /\ m_prev_error_signal lower_layer = handed_down
  /\ Get dW (NumNeurons lower_layer) 0 = Q2Qc (3 # 2)%Q
  /\ Get dW (NumNeurons lower_layer) 1 = Q2Qc (3 # 2)%Q
  /\ Get dW (NumNeurons lower_layer) 0 <> d_zero.
Proof.
  cbv zeta.
  split; [apply Qc_is_canon; vm_compute; reflexivity |].
  split; [apply Qc_is_canon; vm_compute; reflexivity |].
  split; [reflexivity |].
  split; [apply Qc_is_canon; vm_compute; reflexivity |].
  split; [apply Qc_is_canon; vm_compute; reflexivity |].
  intros H. apply (f_equal this) in H. vm_compute in H. discriminate H.
Qed.

(** C7, as the specification words it, fails: the sample residual matrix has
    two rows and one column, of norm 3, and the cost is not 3 over the
    number of rows. *)
Lemma computeCost_not_over_rows :
  two_norm (column sample_deltas 0) = q 3
  /\ Height sample_deltas = 2
  /\ computeCost grid_1x1 proc_0 sample_deltas
     <> (two_norm (column sample_deltas 0) / d_of_nat (Height sample_deltas))%D.
Proof.
  split; [apply Qc_is_canon; vm_compute; reflexivity |].
  split; [reflexivity |].
  intros H. apply (f_equal this) in H. vm_compute in H. discriminate H.
Qed.

(** C9.  The code at a failing input: the checker on the sample layer after a
    forward step.  The value returned is the square root of zero over zero,
    which is zero in rational arithmetic, and it is the same for other
    weights behind the same activations: no difference of gradients has
    been accumulated.  The perturbed copy of the weights is made (after two
    entries, entry [(0, 1)] of [WB_E1] is the bias 3 plus the perturbation)
    and never read; all four entries of the sweep are reported for both
    scratch matrices. *)
Theorem checkGradient_sample :
  let r := checkGradient grid_1x1 proc_0 checked_layer checked_layer (q 1) in
  let r' := checkGradient grid_1x1 proc_0 checked_layer_other_weights
                          checked_layer_other_weights (q 1) in
  this (fst r) = 0%Q
  /\ this (fst r') = 0%Q
  /\ length (snd r) = 8
  /\ length (snd r') = 8
  /\ this (Get (WB_E1 (checker_after grid_1x1 proc_0 checked_layer (q 1) 2)) 0 1)
     = 4%Q.
Proof.
  cbv zeta. repeat split; vm_compute; reflexivity.
Qed.

(** C10, as it is worded, fails at the second entry of the sweep: the
    scratch matrix compared there is not the negated activations, its entry
    [(0, 0)] is -10 where the activation is 5. *)
Lemma checkGradient_second_entry :
  this (Get (m_activations checked_layer) 0 0) = 5%Q
  /\ Acts_E1 (checker_after grid_1x1 proc_0 checked_layer (q 1) 2)
     <> scale (- d_one)%D (m_activations checked_layer).
Proof.
  split; [vm_compute; reflexivity |].
  intros H. apply (f_equal (fun M : @Mat Qc_ops => this (Get M 0 0 : Qc))) in H.
  vm_compute in H. discriminate H.
Qed.

(** In binary64 arithmetic the value [checkGradient] returns, the square
    root of zero over zero, is not a number. *)
Lemma zero_over_zero_binary64 :
  PrimFloat.is_nan (@d_sqrt binary64 (d_zero / d_zero)%D) = true.
Proof. vm_compute. reflexivity. Qed.

End Examples.

(** ** Further properties of the linearity *)

Section MoreLinearity.
Context {O : DataOps} {Opt : OptimizerOps O}.

(** Entry [(i, j)] of the preactivations after [fp_linearity], for a layer
    of any extents. *)
Lemma fp_linearity_entry `{!Ideal O} (L : Layer) i j :
  i < Height (m_preactivations L) -> j < Width (m_preactivations L) ->
  Get (m_preactivations (fp_linearity L)) i j
  = sum_upto (Width (m_weights L))
             (fun k => (Get (m_weights L) i k * Get (m_prev_activations L) k j)%D).
Proof.
  intros Hi Hj. unfold fp_linearity, m_preactivations, m_weights, m_prev_activations in *.
  simpl. rewrite Gemm_beta_zero by assumption. apply mul_1_l.
Qed.

Lemma fp_linearity_stores (L : Layer) :
  m_preactivations (fp_linearity L)
  = Gemm NORMAL NORMAL d_one (m_weights L) (m_prev_activations L) d_zero
         (m_preactivations L)
  /\ m_activations (fp_linearity L) = m_preactivations (fp_linearity L)
  /\ (forall b, b <> preactivations -> b <> activations ->
        store (fp_linearity L) b = store L b)
  /\ views (fp_linearity L) = views L.
Proof.
  repeat split. intros b H1 H2. unfold fp_linearity. simpl.
  destruct (buffer_eq_dec b activations); [contradiction |].
  destruct (buffer_eq_dec b preactivations); [contradiction |]. reflexivity.
Qed.

(** X1.  A second forward linearity on unchanged inputs changes nothing:
    every buffer of the layer is what the first one left, and the views are
    not touched. *)
Theorem fp_linearity_idempotent `{!Ideal O} (L : Layer) :
  (forall b, store (fp_linearity (fp_linearity L)) b = store (fp_linearity L) b)
  /\ views (fp_linearity (fp_linearity L)) = views L.
Proof.
  split; [| reflexivity].
  assert (EZ : m_preactivations (fp_linearity (fp_linearity L))
               = m_preactivations (fp_linearity L)).
  { destruct (fp_linearity_stores (fp_linearity L)) as (E2 & _ & F2 & _).
    destruct (fp_linearity_stores L) as (E1 & _ & F1 & _).
    rewrite E2.
    unfold m_weights, m_prev_activations.
    rewrite (F1 weights), (F1 prev_activations) by discriminate.
    fold (m_weights L) (m_prev_activations L). rewrite E1.
    apply mat_ext; [solve [auto with mat] | solve [auto with mat] | reflexivity | reflexivity |].
    intros i j Hi Hj.
    assert (Hi' : i < Height (m_preactivations L)) by exact Hi.
    assert (Hj' : j < Width (m_preactivations L)) by exact Hj.
    rewrite !Gemm_beta_zero by assumption. reflexivity. }
  intros b.
  destruct (buffer_eq_dec b preactivations) as [-> | Hp]; [exact EZ |].
  destruct (buffer_eq_dec b activations) as [-> | Ha].
  - destruct (fp_linearity_stores (fp_linearity L)) as (_ & A2 & _).
    destruct (fp_linearity_stores L) as (_ & A1 & _).
    fold (m_activations (fp_linearity (fp_linearity L))).
    fold (m_activations (fp_linearity L)).
    rewrite A2, A1. exact EZ.
  - destruct (fp_linearity_stores (fp_linearity L)) as (_ & _ & F2 & _).
    apply F2; assumption.
Qed.
(** X2.  [bp_linearity] writes the weight gradient and the first [b] columns
    of the error signal and nothing else: every other buffer, the columns of
    the error signal from [b] on, the optimizer and the effective
    mini-batch size are as before. *)
Theorem bp_linearity_frame (L : Layer) (P b : nat) :
  configured L P ->
  let L' := bp_linearity (fp_set_std_matrix_view L b) in
  (forall buf, buf <> error_signal -> buf <> weights_gradient ->
     store L' buf = store L buf)
  /\ has_extents (m_error_signal L') (P + 1) (m_mini_batch_size L)
  /\ (forall i j, i < P + 1 -> b <= j -> j < m_mini_batch_size L ->
        Get (m_error_signal L') i j = Get (m_error_signal L) i j)
  /\ optimizer L' = optimizer L
  /\ get_effective_minibatch_size L' = get_effective_minibatch_size L.
Proof.
  intros C. cbv zeta.
  destruct (bp_linearity_stores b C) as (E & _ & _). cbv zeta in E.
  pose proof C as [_ _ _ [HS1 HS2] _ _ _ Vw Vg].
  split.
  { intros buf H1 H2.
    unfold bp_linearity, Gemm_views, assign, deref, fp_set_std_matrix_view.
    simpl. rewrite Vw, Vg. simpl.
    destruct (buffer_eq_dec buf weights_gradient); [contradiction |].
    destruct (buffer_eq_dec buf error_signal); [contradiction |]. reflexivity. }
  split.
  { rewrite E. unfold has_extents, view_write.
    rewrite Height_mk_mat, Width_mk_mat. split; assumption. }
  split.
  { intros i j Hi Hb Hj. rewrite E.
    rewrite Get_view_write by lia. rewrite !in_IR_0.
    replace (j <? b) with false by (symmetry; apply Nat.ltb_ge; exact Hb).
    rewrite andb_false_r. reflexivity. }
  split; reflexivity.
Qed.

(** X3.  When the last row of the weights is [0, ..., 0, 1], as [setup]
    leaves it, the forward linearity copies the last row of the previous
    activations into the last row of the preactivations and of the
    activations, in every column of the buffer. *)
Theorem fp_linearity_bias_row `{!Ideal O} (L : Layer) (P b j : nat) :
  configured L P ->
  (forall k, k < P -> Get (m_weights L) (NumNeurons L) k = d_zero) ->
  Get (m_weights L) (NumNeurons L) P = d_one ->
  j < m_mini_batch_size L ->
  let L' := fp_linearity (fp_set_std_matrix_view L b) in
  Get (m_preactivations L') (NumNeurons L) j = Get (m_prev_activations L) P j
  /\ Get (m_activations L') (NumNeurons L) j = Get (m_prev_activations L) P j.
Proof.
  intros C Hz H1 Hj. cbv zeta.
  destruct C as [[HW1 HW2] _ _ _ [HZ1 HZ2] _ _ _ _].
  assert (E : Get (m_preactivations (fp_linearity (fp_set_std_matrix_view L b)))
                  (NumNeurons L) j = Get (m_prev_activations L) P j).
  { rewrite fp_linearity_entry
      by (change (m_preactivations (fp_set_std_matrix_view L b))
            with (m_preactivations L); lia).
    change (m_weights (fp_set_std_matrix_view L b)) with (m_weights L).
    change (m_prev_activations (fp_set_std_matrix_view L b))
      with (m_prev_activations L).
    rewrite HW2.
    rewrite (@sum_upto_single O _ (P + 1)
               (fun k => (Get (m_weights L) (NumNeurons L) k
                          * Get (m_prev_activations L) k j)%D) P)
      by (try lia; intros k Hk Hne; rewrite Hz by lia; apply mul_0_l).
    rewrite H1. apply mul_1_l. }
  split; exact E.
Qed.

(** X4.  A backward step whose incoming error signal is zero in the columns
    of the view leaves a zero weight gradient and hands down a zero error
    signal in those columns. *)
Theorem bp_linearity_zero_error `{!Ideal O} (L : Layer) (P b : nat) :
  configured L P ->
  b <= m_mini_batch_size L ->
  (forall i k, i < NumNeurons L + 1 -> k < b ->
     Get (m_prev_error_signal L) i k = d_zero) ->
  let L' := bp_linearity (fp_set_std_matrix_view L b) in
  m_weights_gradient L' = Zeros (NumNeurons L + 1) (P + 1)
  /\ (forall i j, i < P + 1 -> j < b -> Get (m_error_signal L') i j = d_zero).
Proof.
  intros C Hb Hz. cbv zeta. split.
  - destruct (bp_linearity_gradient_extents b C) as [WF [X1 X2]].
    apply mat_ext; [exact WF | apply wf_Zeros | | |].
    + rewrite X1. reflexivity.
    + rewrite X2. reflexivity.
    + rewrite X1, X2. intros i j Hi Hj.
      rewrite (bp_linearity_gradient_entry b C) by assumption.
      rewrite Get_Zeros. rewrite sum_upto_zeros.
      * apply mul_0_r.
      * apply add_0_l.
      * intros k Hk. rewrite Hz by assumption. apply mul_0_l.
  - intros i j Hi Hj.
    rewrite (bp_linearity_error_entry C) by assumption.
    apply sum_upto_zeros; [apply add_0_l |].
    intros k Hk. rewrite Hz by assumption. apply mul_0_r.
Qed.

Lemma set_effective_minibatch_size_configured (L : Layer) P n :
  configured L P -> configured (set_effective_minibatch_size L n) P.
Proof. intros [? ? ? ? ? ? ? ? ?]. constructor; assumption. Qed.

(** X5.  [set_effective_minibatch_size] changes the effective size and not
    the local one, and the weight gradient scales with its inverse: with
    effective size [k * m] the gradient is [1/k] times the gradient with
    effective size [m], all else equal.  The two scalar identities are those
    of exact arithmetic. *)
Theorem bp_linearity_effective_scaling `{!Ideal O} (L : Layer) (P b k : nat) :
  configured L P ->
  (forall x y z : DataType, (x * y * z)%D = (x * (y * z))%D) ->
  let m := get_effective_minibatch_size L in
  (d_one / d_of_nat (k * m))%D = (d_one / d_of_nat k * (d_one / d_of_nat m))%D ->
  get_effective_minibatch_size (set_effective_minibatch_size L (k * m)) = k * m
  /\ get_minibatch_size (set_effective_minibatch_size L (k * m))
     = get_minibatch_size L
  /\ m_weights_gradient
       (bp_linearity
          (fp_set_std_matrix_view (set_effective_minibatch_size L (k * m)) b))
     = scale (d_one / d_of_nat k)%D
             (m_weights_gradient (bp_linearity (fp_set_std_matrix_view L b))).
Proof.
  intros C Assoc m Hdiv.
  split; [reflexivity |]. split; [reflexivity |].
  pose proof (set_effective_minibatch_size_configured (k * m) C) as C'.
  destruct (bp_linearity_gradient_extents b C) as [WF [X1 X2]].
  destruct (bp_linearity_gradient_extents b C') as [WF' [X1' X2']].
  apply mat_ext; [exact WF' | apply wf_scale | | |].
  - rewrite X1'. unfold scale. rewrite Height_mk_mat, X1. reflexivity.
  - rewrite X2'. unfold scale. rewrite Width_mk_mat, X2. reflexivity.
  - rewrite X1', X2'. intros i j Hi Hj.
    change (NumNeurons (set_effective_minibatch_size L (k * m)))
      with (NumNeurons L) in Hi.
    rewrite (bp_linearity_gradient_entry b C') by assumption.
    rewrite Get_scale by (rewrite ?X1, ?X2; assumption).
    rewrite (bp_linearity_gradient_entry b C) by assumption.
    change (get_effective_minibatch_size (set_effective_minibatch_size L (k * m)))
      with (k * m).
    fold m. rewrite Hdiv, Assoc. reflexivity.
Qed.

End MoreLinearity.

(** ** Further properties of the setup *)

Section MoreSetup.
Context {O : DataOps} {Opt : OptimizerOps O} {Rnd : RandomOps O}
        {Base : BaseLayer Opt}.
Import weight_initialization.

Lemma setup_frame (L : Layer) P :
  let L0 := Layer_setup L P in
  NumNeurons (setup L P) = NumNeurons L0
  /\ m_mini_batch_size (setup L P) = m_mini_batch_size L0
  /\ m_execution_mode (setup L P) = m_execution_mode L0
  /\ optimizer (setup L P) = optimizer (setup_optimizer L0 P).
Proof.
  intros L0.
  assert (F : forall L1 : Layer,
             NumNeurons (init_weights L1 P) = NumNeurons L1
             /\ m_mini_batch_size (init_weights L1 P) = m_mini_batch_size L1
             /\ m_execution_mode (init_weights L1 P) = m_execution_mode L1
             /\ optimizer (init_weights L1 P) = optimizer L1).
  { intros L1. unfold init_weights.
    destruct (m_weight_initialization L1); repeat split. }
  assert (G : NumNeurons (setup_optimizer L0 P) = NumNeurons L0
              /\ m_mini_batch_size (setup_optimizer L0 P) = m_mini_batch_size L0
              /\ m_execution_mode (setup_optimizer L0 P) = m_execution_mode L0).
  { unfold setup_optimizer. destruct (optimizer L0); repeat split. }
  destruct (F (init_weight_bias_matrix (setup_optimizer L0 P) P))
    as (F1 & F2 & F3 & F4).
  destruct G as (G1 & G2 & G3).
  repeat split.
  - change (NumNeurons (setup L P))
      with (NumNeurons (init_weights (init_weight_bias_matrix (setup_optimizer L0 P) P) P)).
    rewrite F1. exact G1.
  - change (m_mini_batch_size (setup L P))
      with (m_mini_batch_size (init_weights (init_weight_bias_matrix (setup_optimizer L0 P) P) P)).
    rewrite F2. exact G2.
  - change (m_execution_mode (setup L P))
      with (m_execution_mode (init_weights (init_weight_bias_matrix (setup_optimizer L0 P) P) P)).
    rewrite F3. exact G3.
  - change (optimizer (setup L P))
      with (optimizer (init_weights (init_weight_bias_matrix (setup_optimizer L0 P) P) P)).
    rewrite F4. reflexivity.
Qed.

(** X6.  After [setup] every buffer has the extents of the layer's shape,
    the weight gradient, both error signals, the preactivations, the
    activations and the previous activations are zero, and the three views
    [WB_view], [WB_D_view] and [Acts_view] cover all rows but the last. *)
Theorem setup_buffers (L : Layer) (P : nat) :
  let L0 := Layer_setup L P in
  let N := NumNeurons L0 in
  let B := m_mini_batch_size L0 in
  valid_grid (comm L0) ->
  let L' := setup L P in
  configured L' P
  /\ NumNeurons L' = N /\ m_mini_batch_size L' = B
  /\ m_weights_gradient L' = Zeros (N + 1) (P + 1)
  /\ m_prev_error_signal L' = Zeros (N + 1) B
  /\ m_error_signal L' = Zeros (P + 1) B
  /\ m_preactivations L' = Zeros (N + 1) B
  /\ m_activations L' = Zeros (N + 1) B
  /\ m_prev_activations L' = Zeros (P + 1) B
  /\ views L' WB_view = Build_view weights (Build_IR 0 N) (Build_IR 0 (P + 1))
  /\ views L' WB_D_view
     = Build_view weights_gradient (Build_IR 0 N) (Build_IR 0 (P + 1))
  /\ views L' Acts_view = Build_view activations (Build_IR 0 N) (Build_IR 0 B).
Proof.
  intros L0 N B Hg L'.
  destruct (@setup_configured O Opt Rnd Base L P Hg) as (C & EN & EB).
  fold L0 L' N in EN. fold L0 L' B in EB. fold L' in C.
  destruct (@setup_weights_extents O Opt Rnd Base L P Hg) as (_ & HH & HW).
  fold L0 N L' in HH, HW.
  set (L3 := init_weights (init_weight_bias_matrix (setup_optimizer L0 P) P) P) in *.
  assert (E3 : NumNeurons L3 = N) by exact EN.
  assert (B3 : m_mini_batch_size L3 = B) by exact EB.
  assert (H3 : Height (m_weights L3) = N + 1) by exact HH.
  assert (W3 : Width (m_weights L3) = P + 1) by exact HW.
  split; [exact C |]. split; [exact EN |]. split; [exact EB |].
  split; [change (m_weights_gradient L') with (Zeros (NumNeurons L3 + 1) (P + 1));
          rewrite E3; reflexivity |].
  split; [change (m_prev_error_signal L')
            with (Zeros (NumNeurons L3 + 1) (m_mini_batch_size L3));
          rewrite E3, B3; reflexivity |].
  split; [change (m_error_signal L') with (Zeros (P + 1) (m_mini_batch_size L3));
          rewrite B3; reflexivity |].
  split; [change (m_preactivations L')
            with (Zeros (NumNeurons L3 + 1) (m_mini_batch_size L3));
          rewrite E3, B3; reflexivity |].
  split; [change (m_activations L')
            with (Zeros (NumNeurons L3 + 1) (m_mini_batch_size L3));
          rewrite E3, B3; reflexivity |].
  split; [change (m_prev_activations L') with (Zeros (P + 1) (m_mini_batch_size L3));
          rewrite B3; reflexivity |].
  split; [change (views L' WB_view)
            with (Build_view weights (Build_IR 0 (Height (m_weights L3) - 1))
                             (Build_IR 0 (Width (m_weights L3))));
          rewrite H3, W3, Nat.add_sub; reflexivity |].
  split; [change (views L' WB_D_view)
            with (Build_view weights_gradient (Build_IR 0 (NumNeurons L3 + 1 - 1))
                             (Build_IR 0 (P + 1)));
          rewrite E3, Nat.add_sub; reflexivity |].
  change (views L' Acts_view)
    with (Build_view activations (Build_IR 0 (NumNeurons L3 + 1 - 1))
                     (Build_IR 0 (m_mini_batch_size L3))).
  rewrite E3, B3, Nat.add_sub. reflexivity.
Qed.

(** X7.  With no neuron, or no neuron in the previous layer, the block of
    true weights is empty and every initialization policy leaves the matrix
    of the zero policy, the he policies' division by [numPrevNeurons = 0]
    included. *)
Theorem setup_empty_block (L : Layer) (P : nat) :
  let L0 := Layer_setup L P in
  let N := NumNeurons L0 in
  valid_grid (comm L0) ->
  N = 0 \/ P = 0 ->
  m_weights (setup L P)
  = mk_mat (N + 1) (P + 1)
           (fun i j => if (i =? N) && (j =? P) then d_one else d_zero).
Proof.
  intros L0 N Hg Hempty.
  destruct (@setup_weights_extents O Opt Rnd Base L P Hg) as (WF & HH & HW).
  fold L0 N in HH, HW.
  apply mat_ext; [exact WF | apply wf_mk_mat | exact HH | exact HW |].
  rewrite HH, HW. intros i j Hi Hj.
  rewrite setup_weights_entry by assumption. fold L0 N.
  rewrite Get_mk_mat by assumption.
  replace ((i <? N) && (j <? P)) with false; [reflexivity |].
  symmetry. apply andb_false_iff.
  destruct Hempty as [-> | ->]; [left | right]; apply Nat.ltb_ge; lia.
Qed.

(** X8.  [setup] hands the extents [P+1] and [N+1] to the optimizer when
    there is one and leaves a null optimizer null; an update of the layer it
    returns then dereferences the null pointer in training mode, and does
    nothing in any other mode. *)
Theorem setup_optimizer_handling (L : Layer) (P : nat) :
  let L0 := Layer_setup L P in
  (forall o, optimizer L0 = Some o ->
     optimizer (setup L P)
     = Some (Optimizer_setup o (P + 1) (NumNeurons L0 + 1)))
  /\ (optimizer L0 = None ->
      optimizer (setup L P) = None
      /\ (m_execution_mode L0 = execution_mode.training -> update (setup L P) = None)
      /\ (m_execution_mode L0 <> execution_mode.training ->
          update (setup L P) = Some (true, setup L P, []))).
Proof.
  intros L0. destruct (setup_frame L P) as (_ & _ & FM & FO). fold L0 in FM, FO.
  split.
  - intros o Ho. rewrite FO. unfold setup_optimizer. rewrite Ho. reflexivity.
  - intros Ho.
    assert (EO : optimizer (setup L P) = None)
      by (rewrite FO; unfold setup_optimizer; rewrite Ho; exact Ho).
    split; [exact EO |]. split.
    + intros Hm. unfold update. rewrite FM, Hm, EO. reflexivity.
    + intros Hm. unfold update. rewrite FM.
      destruct (m_execution_mode L0); [contradiction Hm; reflexivity | reflexivity].
Qed.

(** X9.  After [setup] with the zero policy [WBL2norm] is one, the square of
    the entry [(N, P)]. *)
Theorem WBL2norm_after_setup `{!Ideal O} (L : Layer) (P : nat) :
  let L0 := Layer_setup L P in
  valid_grid (comm L0) ->
  m_weight_initialization L0 = zero ->
  d_sqrt d_one = d_one ->
  WBL2norm (setup L P) = d_one.
Proof.
  intros L0 Hg Hz Hs.
  destruct (@setup_weights_extents O Opt Rnd Base L P Hg) as (_ & HH & HW).
  fold L0 in HH, HW.
  assert (Ent : forall i j, i < NumNeurons L0 + 1 -> j < P + 1 ->
            Get (m_weights (setup L P)) i j
            = if (i =? NumNeurons L0) && (j =? P) then d_one else d_zero).
  { intros i j Hi Hj. rewrite setup_weights_entry by assumption. fold L0.
    rewrite Hz.
    destruct ((i <? NumNeurons L0) && (j <? P)) eqn:E; [| reflexivity].
    apply andb_true_iff in E. destruct E as [E1 _]. apply Nat.ltb_lt in E1.
    replace (i =? NumNeurons L0) with false by (symmetry; apply Nat.eqb_neq; lia).
    reflexivity. }
  unfold WBL2norm, Nrm2. cbv zeta. rewrite HH, HW.
  assert (S : sum_upto (NumNeurons L0 + 1)
                (fun i => sum_upto (P + 1)
                   (fun j => (Get (m_weights (setup L P)) i j
                              * Get (m_weights (setup L P)) i j)%D)) = d_one).
  { rewrite (@sum_upto_single O _ (NumNeurons L0 + 1) _ (NumNeurons L0)).
    - rewrite (@sum_upto_single O _ (P + 1) _ P).
      + rewrite Ent by lia. rewrite !Nat.eqb_refl. apply mul_1_l.
      + lia.
      + intros j Hj Hne. rewrite Ent by lia.
        replace (j =? P) with false by (symmetry; apply Nat.eqb_neq; exact Hne).
        rewrite andb_false_r. apply mul_0_l.
    - lia.
    - intros i Hi Hne. apply sum_upto_zeros; [apply add_0_l |].
      intros j Hj. rewrite Ent by lia.
      replace (i =? NumNeurons L0) with false by (symmetry; apply Nat.eqb_neq; exact Hne).
      apply mul_0_l. }
  rewrite S, Hs. apply mul_1_l.
Qed.

End MoreSetup.

(** ** Further properties of the cost *)

Section MoreCost.
Context {O : DataOps} {Mpi : MpiOps O}.

Lemma fold_squares_zeros `{!Ideal O} (l : list DataType) (acc : DataType) :
  Forall (fun x => x = d_zero) l ->
  fold_left (fun a x : DataType => (a + x * x)%D) l acc = acc.
Proof.
  intros H. revert acc. induction H as [| x l Hx _ IH]; intros acc; cbn [fold_left].
  - reflexivity.
  - rewrite Hx, mul_0_l, add_0_r. apply IH.
Qed.

(** X10.  Rows of zeros below a residual matrix do not change its cost, on
    any process of any grid: the divisor counts columns. *)
Theorem computeCost_zero_rows `{!Ideal O} (g : Grid) (me : Proc) (d1 d2 : Mat) :
  Width d2 = Width d1 ->
  Height d1 <= Height d2 ->
  (forall i k, i < Height d1 -> k < Width d1 -> Get d2 i k = Get d1 i k) ->
  (forall i k, Height d1 <= i -> i < Height d2 -> k < Width d1 ->
     Get d2 i k = d_zero) ->
  computeCost g me d2 = computeCost g me d1.
Proof.
  intros EW HH Same Zero.
  assert (EN : ColumnTwoNorms d2 = ColumnTwoNorms d1).
  { unfold ColumnTwoNorms. rewrite EW. apply mk_mat_ext. intros k c Hk _.
    unfold two_norm, column. f_equal.
    replace (Height d2) with (Height d1 + (Height d2 - Height d1)) by lia.
    rewrite seq_app, map_app, fold_left_app. cbn [Nat.add].
    rewrite fold_squares_zeros.
    - f_equal. apply map_ext_in. intros i Hi. apply in_seq in Hi.
      apply Same; lia.
    - apply Forall_forall. intros x Hx. apply in_map_iff in Hx.
      destruct Hx as (i & <- & Hi). apply in_seq in Hi. apply Zero; lia. }
  unfold computeCost. rewrite EN. reflexivity.
Qed.

(** X11.  On a residual matrix without columns [computeCost] divides zero
    by zero. *)
Theorem computeCost_no_columns `{!Ideal O} `{!MpiLaws Mpi}
        (g : Grid) (me : Proc) (deltas : Mat) :
  Width deltas = 0 ->
  computeCost g me deltas = (d_zero / d_of_nat 0)%D.
Proof.
  intros HW. unfold computeCost.
  assert (Z : forall p, local_total_error g p (ColumnTwoNorms deltas) = d_zero).
  { intros p. rewrite local_total_error_sum.
    unfold LocalHeight, ColumnTwoNorms. rewrite Height_mk_mat, HW.
    unfold Length_. cbn [Nat.ltb Nat.leb]. reflexivity. }
  rewrite Z. rewrite AllReduce_zeros.
  - unfold ColumnTwoNorms. rewrite Height_mk_mat, HW. reflexivity.
  - apply Forall_forall. intros x Hx. apply in_map_iff in Hx.
    destruct Hx as (p & <- & _). apply Z.
Qed.

End MoreCost.

(** ** Further properties of the gradient checker *)

Section MoreChecker.
Context {O : DataOps} {Opt : OptimizerOps O}.

Lemma perturbed_at_move g me (W E : Mat) r c r' c'
      (f finv : DataType -> DataType) :
  valid_grid g ->
  (forall x, finv (f x) = x) ->
  perturbed_at g me W E r c f ->
  perturbed_at g me W
    (update_if_local g me (update_if_local g me E r c finv) r' c' f) r' c' f.
Proof.
  intros Hg Hinv (HH & HW & HE).
  rewrite !update_if_local_spec by exact Hg.
  set (E1 := if IsLocal g me MC MR r c then Set_ E r c (finv (Get E r c)) else E).
  assert (R : Height E1 = Height W /\ Width E1 = Width W
              /\ forall i j, i < Height W -> j < Width W -> Get E1 i j = Get W i j).
  { subst E1. destruct (IsLocal g me MC MR r c) eqn:El.
    - unfold Set_ at 1 2. rewrite Height_mk_mat, Width_mk_mat.
      split; [exact HH |]. split; [exact HW |].
      intros i j Hi Hj. rewrite Get_Set_ by (rewrite ?HH, ?HW; assumption).
      destruct ((i =? r) && (j =? c)) eqn:Eij.
      + apply andb_true_iff in Eij. destruct Eij as [Ei Ej].
        apply Nat.eqb_eq in Ei, Ej. subst i j.
        rewrite HE by assumption. rewrite !Nat.eqb_refl. cbn [andb].
        apply Hinv.
      + rewrite HE by assumption. rewrite Eij. reflexivity.
    - split; [exact HH |]. split; [exact HW |].
      intros i j Hi Hj. rewrite HE by assumption.
      rewrite andb_false_r. reflexivity. }
  destruct R as (H1 & W1 & G1).
  unfold perturbed_at.
  destruct (IsLocal g me MC MR r' c') eqn:El'.
  - unfold Set_ at 1 2. rewrite Height_mk_mat, Width_mk_mat.
    split; [exact H1 |]. split; [exact W1 |].
    intros i j Hi Hj. rewrite Get_Set_ by (rewrite ?H1, ?W1; assumption).
    rewrite andb_true_r.
    destruct ((i =? r') && (j =? c')) eqn:Eij.
    + apply andb_true_iff in Eij. destruct Eij as [Ei Ej].
      apply Nat.eqb_eq in Ei, Ej. subst i j. rewrite G1 by assumption. reflexivity.
    + apply G1; assumption.
  - split; [exact H1 |]. split; [exact W1 |].
    intros i j Hi Hj. rewrite andb_false_r. apply G1; assumption.
Qed.


Lemma last_shift (A : Type) (l : list A) (a d : A) :
  last l a = last (a :: l) d.
Proof.
  revert a d. induction l as [| b l IH]; intros a d; [reflexivity |].
  change (last (a :: b :: l) d) with (last (b :: l) d).
  rewrite <- (IH b a), <- (IH b d). reflexivity.
Qed.

Lemma perturbed_at_init g me (W : Mat) (f : DataType -> DataType) :
  valid_grid g ->
  perturbed_at g me W (update_if_local g me (Copy W) 0 0 f) 0 0 f.
Proof.
  intros Hg. rewrite update_if_local_spec by exact Hg. unfold Copy, perturbed_at.
  destruct (IsLocal g me MC MR 0 0) eqn:El.
  - unfold Set_ at 1 2. rewrite Height_mk_mat, Width_mk_mat.
    split; [reflexivity |]. split; [reflexivity |].
    intros i j Hi Hj. rewrite Get_Set_ by assumption. rewrite andb_true_r.
    destruct ((i =? 0) && (j =? 0)) eqn:Eij; [| reflexivity].
    apply andb_true_iff in Eij. destruct Eij as [Ei Ej].
    apply Nat.eqb_eq in Ei, Ej. subst i j. reflexivity.
  - split; [reflexivity |]. split; [reflexivity |].
    intros i j Hi Hj. rewrite andb_false_r. reflexivity.
Qed.

Lemma checker_fold_perturbed g me (L : Layer) eps l :
  valid_grid g -> cancels ->
  forall st,
    one_entry_perturbed g me L eps st ->
    let st' := fold_left (checker_step g me L eps) l st in
    one_entry_perturbed g me L eps st'
    /\ (prow st', pcol st') = last l (prow st, pcol st).
Proof.
  intros Hg [Cplus Cminus]. induction l as [| e l IH]; intros st Inv.
  - split; [exact Inv | reflexivity].
  - cbn [fold_left]. cbv zeta.
    assert (Inv' : one_entry_perturbed g me L eps (checker_step g me L eps st e)).
    { destruct Inv as [I1 I2]. destruct e as [row col].
      unfold one_entry_perturbed, checker_step. cbn [WB_E1 WB_E2 prow pcol]. split.
      - apply (@perturbed_at_move g me (m_weights L) (WB_E1 st) (prow st) (pcol st)
                                  row col (fun x => (x + eps)%D)
                                  (fun x => (x - eps)%D)); try assumption.
        intros x. apply Cplus.
      - apply (@perturbed_at_move g me (m_weights L) (WB_E2 st) (prow st) (pcol st)
                                  row col (fun x => (x - eps)%D)
                                  (fun x => (x + eps)%D)); try assumption.
        intros x. apply Cminus. }
    destruct (IH _ Inv') as [I P]. cbv zeta in I, P. split; [exact I |].
    rewrite P. destruct e as [row col].
    unfold checker_step at 1 2. cbn [prow pcol]. apply last_shift.
Qed.

(** X12.  The sweep perturbs one weight at a time: after any number of
    entries [WB_E1] is the weight matrix with the perturbation added at the
    entry visited last (at [(0, 0)] before the first), on the process that
    stores it, and [WB_E2] the same with the perturbation subtracted; every
    earlier perturbation has been taken back. *)
Theorem checkGradient_one_entry_perturbed (g : Grid) (me : Proc) (L : Layer)
        (Epsilon : DataType) (k : nat) :
  valid_grid g -> cancels ->
  let st := checker_after g me L Epsilon k in
  (prow st, pcol st)
  = last (firstn k (sweep (Height (m_weights L)) (Width (m_weights L)))) (0, 0)
  /\ perturbed_at g me (m_weights L) (WB_E1 st) (prow st) (pcol st)
                  (fun x => (x + Epsilon)%D)
  /\ perturbed_at g me (m_weights L) (WB_E2 st) (prow st) (pcol st)
                  (fun x => (x - Epsilon)%D).
Proof.
  intros Hg Hc st. subst st. unfold checker_after.
  assert (I0 : one_entry_perturbed g me L Epsilon (checker_init g me L Epsilon)).
  { unfold one_entry_perturbed, checker_init. cbn [WB_E1 WB_E2 prow pcol].
    split; apply perturbed_at_init; exact Hg. }
  destruct (@checker_fold_perturbed g me L Epsilon
              (firstn k (sweep (Height (m_weights L)) (Width (m_weights L))))
              Hg Hc _ I0) as [[I1 I2] P].
  cbv zeta in I1, I2, P. split; [exact P |]. split; assumption.
Qed.

Lemma Axpy_all_zero `{!Ideal O} (alpha : DataType) (X Y : Mat) :
  all_zero X -> all_zero Y -> all_zero (Axpy alpha X Y).
Proof.
  intros HX HY i j.
  destruct (Nat.lt_ge_cases i (Height Y)) as [Hi | Hi];
    [destruct (Nat.lt_ge_cases j (Width Y)) as [Hj | Hj] |].
  - rewrite Get_Axpy by assumption. rewrite HX, HY, mul_0_r. apply add_0_l.
  - apply Get_mk_mat_outside. right. exact Hj.
  - apply Get_mk_mat_outside. left. exact Hi.
Qed.

Lemma bad_entries_all_zero g me (acts A : Mat) row :
  d_ltb d_tol d_zero = false -> d_ltb d_zero (- d_tol)%D = false ->
  all_zero A ->
  bad_entries g me acts A row = false.
Proof.
  intros T1 T2 HA. unfold bad_entries.
  assert (Inner : forall r l, fold_left
            (fun bad c =>
               if IsLocal g me MC MR r c then
                 let _r := LocalRow g me MC r in
                 let _c := LocalCol g me MR c in
                 let x := GetLocal g me MC MR A _r _c in
                 if (d_ltb d_tol x || d_ltb x (- d_tol)%D) && negb (r =? row)
                 then true else bad
               else bad) l false = false).
  { intros r l. induction l as [| c l IH]; cbn [fold_left]; [reflexivity |].
    cbv zeta. unfold GetLocal. rewrite HA, T1, T2. cbn [orb andb].
    destruct (IsLocal g me MC MR r c); exact IH. }
  induction (seq 0 (Height acts)) as [| r l IH]; cbn [fold_left]; [reflexivity |].
  rewrite Inner. exact IH.
Qed.

(** X13.  On a layer whose activations are all zero, as after [setup], the
    checker prints nothing. *)
Theorem checkGradient_silent_on_zero_activations `{!Ideal O}
        (g : Grid) (me : Proc) (L PrevLayer : Layer) (Epsilon : DataType) :
  d_ltb d_tol d_zero = false -> d_ltb d_zero (- d_tol)%D = false ->
  all_zero (m_activations L) ->
  snd (checkGradient g me L PrevLayer Epsilon) = [].
Proof.
  intros T1 T2 HA. unfold checkGradient. cbn [snd].
  assert (Gen : forall l st,
             all_zero (Acts_E1 st) -> all_zero (Acts_E2 st) -> printed st = [] ->
             printed (fold_left (checker_step g me L Epsilon) l st) = []).
  { induction l as [| e l IH]; intros st Z1 Z2 Pr; cbn [fold_left]; [exact Pr |].
    destruct e as [row col].
    apply IH; unfold checker_step; cbn [Acts_E1 Acts_E2 printed].
    - apply Axpy_all_zero; assumption.
    - apply Axpy_all_zero; assumption.
    - rewrite !bad_entries_all_zero by (try assumption; apply Axpy_all_zero; assumption).
      rewrite Pr. reflexivity. }
  apply Gen; unfold checker_init; cbn [Acts_E1 Acts_E2 printed];
    try reflexivity; intros i j; apply Get_Zeros.
Qed.

End MoreChecker.

(** ** The further properties on concrete layers *)

Section MoreExamples.

#[local] Existing Instance sgd.
#[local] Existing Instance fixed_draws.
#[local] Existing Instance plain_base.
#[local] Existing Instance sum_reduce.

Lemma Qc_cancels : @cancels Qc_ops.
Proof.
  split; intros x e; cbn [d_add d_sub Qc_ops DataType]; ring.
Qed.

Lemma fp_linearity_idempotent_witness :
  m_preactivations (fp_linearity (fp_linearity (sample_layer 1 5 1 0 7 0)))
  = m_preactivations (fp_linearity (sample_layer 1 5 1 0 7 0)).
Proof.
  apply (proj1 (fp_linearity_idempotent (sample_layer 1 5 1 0 7 0)) preactivations).
Defined.

Lemma bp_linearity_frame_witness :
  let L := sample_layer 1 5 1 0 7 0 in
  configured L 1
  /\ m_weights (bp_linearity (fp_set_std_matrix_view L 1)) = m_weights L.
Proof.
  cbv zeta. split; [apply sample_layer_configured |].
  apply (proj1 (bp_linearity_frame 1 (sample_layer_configured 1 5 1 0 7 0)) weights);
    discriminate.
Defined.

Lemma fp_linearity_bias_row_witness :
  let L := sample_layer 1 5 1 0 7 0 in
  configured L 1
  /\ Get (m_weights L) 1 0 = d_zero /\ Get (m_weights L) 1 1 = d_one
  /\ Get (m_activations (fp_linearity (fp_set_std_matrix_view L 1))) 1 1
     = Get (m_prev_activations L) 1 1.
Proof.
  cbv zeta. split; [apply sample_layer_configured |].
  split; [vm_compute; reflexivity |]. split; [vm_compute; reflexivity |].
  refine (proj2 (@fp_linearity_bias_row Qc_ops sgd Qc_ideal
                   (sample_layer 1 5 1 0 7 0) 1 1 1
                   (sample_layer_configured 1 5 1 0 7 0) _ _ _)).
  - intros k Hk. assert (k = 0) by lia. subst k. vm_compute. reflexivity.
  - vm_compute. reflexivity.
  - vm_compute. lia.
Defined.

Lemma bp_linearity_zero_error_witness :
  let L := sample_layer 1 5 0 0 7 0 in
  configured L 1
  /\ m_weights_gradient (bp_linearity (fp_set_std_matrix_view L 1)) = Zeros 2 2.
Proof.
  cbv zeta. split; [apply sample_layer_configured |].
  refine (proj1 (@bp_linearity_zero_error Qc_ops sgd Qc_ideal
                   (sample_layer 1 5 0 0 7 0) 1 1
                   (sample_layer_configured 1 5 0 0 7 0) _ _)).
  - vm_compute. lia.
  - intros i k Hi Hk. assert (k = 0) by lia. subst k.
    destruct i as [| [| i]]; [vm_compute; reflexivity | vm_compute; reflexivity |].
    vm_compute in Hi. lia.
Defined.

Lemma bp_linearity_effective_scaling_witness :
  let L := sample_layer 1 5 1 0 7 0 in
  configured L 1
  /\ m_weights_gradient
       (bp_linearity (fp_set_std_matrix_view (set_effective_minibatch_size L (3 * 2)) 1))
     = scale (d_one / d_of_nat 3)%D
             (m_weights_gradient (bp_linearity (fp_set_std_matrix_view L 1))).
Proof.
  cbv zeta. split; [apply sample_layer_configured |].
  refine (proj2 (proj2 (@bp_linearity_effective_scaling Qc_ops sgd Qc_ideal
                   (sample_layer 1 5 1 0 7 0) 1 1 3
                   (sample_layer_configured 1 5 1 0 7 0) _ _))).
  - intros x y z. cbn [d_mul Qc_ops DataType]. symmetry. apply Qcmult_assoc.
  - apply Qc_is_canon. vm_compute. reflexivity.
Defined.

Lemma setup_buffers_witness :
  valid_grid (comm fresh_layer)
  /\ m_activations (setup fresh_layer 1) = Zeros 2 2.
Proof.
  split; [exact valid_grid_1x1 |].
  pose proof (setup_buffers (Rnd := fixed_draws) (Base := plain_base)
                fresh_layer 1 valid_grid_1x1) as H.
  cbv zeta in H. destruct H as (_ & _ & _ & _ & _ & _ & _ & H & _). exact H.
Defined.

Lemma setup_empty_block_witness :
  valid_grid (comm fresh_layer)
  /\ m_weights (setup fresh_layer 0)
     = mk_mat 2 1 (fun i j => if (i =? 1) && (j =? 0) then d_one else d_zero).
Proof.
  split; [exact valid_grid_1x1 |].
  apply (@setup_empty_block Qc_ops sgd fixed_draws plain_base
                            fresh_layer 0 valid_grid_1x1).
  right. reflexivity.
Defined.

Lemma setup_optimizer_handling_witness :
  optimizer fresh_layer_no_optimizer = None
  /\ m_execution_mode fresh_layer_no_optimizer = execution_mode.training
  /\ update (setup fresh_layer_no_optimizer 1) = None.
Proof.
  split; [reflexivity |]. split; [reflexivity |].
  apply (proj2 (setup_optimizer_handling (Rnd := fixed_draws) (Base := plain_base)
                  fresh_layer_no_optimizer 1) eq_refl).
  reflexivity.
Defined.

Lemma WBL2norm_after_setup_witness :
  valid_grid (comm fresh_layer)
  /\ @d_sqrt Qc_ops d_one = d_one
  /\ WBL2norm (setup fresh_layer 1) = d_one.
Proof.
  split; [exact valid_grid_1x1 |].
  assert (S : @d_sqrt Qc_ops d_one = d_one) by (apply Qc_is_canon; reflexivity).
  split; [exact S |].
  apply (WBL2norm_after_setup (Rnd := fixed_draws) (Base := plain_base)
           fresh_layer 1 valid_grid_1x1 eq_refl S).
Defined.

Lemma computeCost_zero_rows_witness :
  Height sample_deltas <= Height padded_deltas
  /\ computeCost grid_1x1 proc_0 padded_deltas
     = computeCost grid_1x1 proc_0 sample_deltas.
Proof.
  split; [vm_compute; lia |].
  apply (@computeCost_zero_rows Qc_ops sum_reduce Qc_ideal grid_1x1 proc_0
                                sample_deltas padded_deltas).
  - reflexivity.
  - vm_compute. lia.
  - intros i k Hi Hk. assert (k = 0) by (vm_compute in Hk; lia). subst k.
    destruct i as [| [| i]]; [reflexivity | reflexivity | vm_compute in Hi; lia].
  - intros i k Hi1 Hi2 Hk. assert (k = 0) by (vm_compute in Hk; lia). subst k.
    assert (i = 2) by (vm_compute in Hi1, Hi2; lia). subst i. vm_compute. reflexivity.
Defined.

Lemma computeCost_no_columns_witness :
  Width no_columns = 0
  /\ computeCost grid_1x1 proc_0 no_columns = (d_zero / d_of_nat 0)%D.
Proof.
  split; [reflexivity |].
  apply (@computeCost_no_columns Qc_ops sum_reduce Qc_ideal sum_reduce_laws
                                 grid_1x1 proc_0 no_columns).
  reflexivity.
Defined.

Lemma checkGradient_one_entry_perturbed_witness :
  valid_grid grid_1x1
  /\ perturbed_at grid_1x1 proc_0 (m_weights checked_layer)
                  (WB_E1 (checker_after grid_1x1 proc_0 checked_layer (q 1) 2))
                  0 1 (fun x => (x + q 1)%D).
Proof.
  split; [exact valid_grid_1x1 |].
  pose proof (@checkGradient_one_entry_perturbed Qc_ops sgd grid_1x1 proc_0
                checked_layer (q 1) 2 valid_grid_1x1 Qc_cancels) as H.
  cbv zeta in H. destruct H as (P & H & _).
  assert (E1 : prow (checker_after grid_1x1 proc_0 checked_layer (q 1) 2) = 0)
    by (vm_compute; reflexivity).
  assert (E2 : pcol (checker_after grid_1x1 proc_0 checked_layer (q 1) 2) = 1)
    by (vm_compute; reflexivity).
  rewrite E1, E2 in H. exact H.
Defined.

Lemma checkGradient_silent_on_zero_activations_witness :
  all_zero (m_activations configured_layer)
  /\ snd (checkGradient grid_1x1 proc_0 configured_layer configured_layer (q 1)) = [].
Proof.
  assert (Z : all_zero (m_activations configured_layer))
    by (intros i j; apply (Get_Zeros 2 2 i j)).
  split; [exact Z |].
  apply (@checkGradient_silent_on_zero_activations Qc_ops sgd Qc_ideal
           grid_1x1 proc_0 configured_layer configured_layer (q 1));
    [reflexivity | reflexivity | exact Z].
Defined.

End MoreExamples.
